(** * web_idl/dictionary.py: Dictionary and DictionaryMember

    A shallow embedding of
    [third_party/blink/renderer/bindings/scripts/web_idl/dictionary.py].

    The Python classes are objects on a heap: a builder ([Dictionary.IR],
    [DictionaryMember.IR]) is a mutable object that other code keeps a
    reference to, and a frozen [Dictionary] refers to its members, which
    refer back to it.  The heap is therefore explicit: a list of objects
    addressed by their index, threaded through a state-and-exception monad.
    Allocation appends; attribute assignment overwrites a cell. *)

From Stdlib Require Import String Ascii List Bool Arith NArith Lia.
From Stdlib Require Import Sorting.Sorted Sorting.Permutation.
From stdpp Require Import base list.
Import ListNotations.

(** ** Values and objects *)

Abbreviation loc := nat.
Definition Identifier := string.
Bind Scope string_scope with Identifier.

(** [idl_type.IdlType]: only [is_optional] is read by this file. *)
Record IdlType := { type_name : string; is_optional : bool }.

(** [literal_constant.LiteralConstant]: carried, never inspected. *)
Record LiteralConstant := { literal : string }.

(** [reference.RefById]: a symbolic reference, resolved by identifier. *)
Record RefById := { ref_identifier : Identifier }.

(** [IRMap.IR.Kind], restricted to the two kinds this file produces. *)
Inductive Kind := DICTIONARY | PARTIAL_DICTIONARY.

(** The value objects attached by the [With...] mixins of
    [composition_parts]: each attribute holds a reference to an object. *)
Record Parts := {
  extended_attributes : loc;
  code_generator_info : loc;
  exposure : loc;
  components : loc;
  debug_info : loc
}.

(** Attributes of a [DictionaryMember.IR]. *)
Record DictionaryMemberIR := {
  mir_identifier : Identifier;
  mir_idl_type : loc;
  mir_default_value : option loc;
  mir_parts : Parts
}.

(** Attributes of a [Dictionary.IR]; [ir_own_members] is a Python list. *)
Record DictionaryIR := {
  ir_identifier : Identifier;
  ir_kind : Kind;
  ir_is_partial : bool;
  ir_inherited : option loc;
  ir_own_members : loc;
  ir_parts : Parts
}.

(** Attributes of a frozen [DictionaryMember]. *)
Record DictionaryMember := {
  m_identifier : Identifier;
  m_owner : loc;
  m_idl_type : loc;
  m_default_value : option loc;
  m_parts : Parts
}.

(** Attributes of a frozen [Dictionary]; [d_own_members] is a tuple. *)
Record Dictionary := {
  d_identifier : Identifier;
  d_inherited : option loc;
  d_own_members : list loc;
  d_parts : Parts
}.

Inductive obj :=
| OValue (content : string)
    (* ExtendedAttributes, CodeGeneratorInfo, Exposure, components, DebugInfo:
       opaque to this file, the content stands for whatever they hold *)
| OIdlType (t : IdlType)
| OLiteralConstant (c : LiteralConstant)
| ORefById (r : RefById)
| OList (elems : list loc)
| OMemberIR (ir : DictionaryMemberIR)
| ODictionaryIR (ir : DictionaryIR)
| OMember (m : DictionaryMember)
| ODictionary (d : Dictionary).

(** A Python value passed as an argument. *)
Inductive value :=
| VNone
| VBool (b : bool)
| VStr (s : string)
| VRef (l : loc).

Abbreviation heap := (list obj).

(** ** Exceptions, state *)

Inductive exn :=
| AssertionError      (* a failed [assert] *)
| ResolutionFailure   (* the identifier resolver found nothing *)
| AttributeError.          (* an attribute read on an object of the wrong class *)

Inductive res (A : Type) :=
| Ret (a : A)
| Raise (e : exn).
Arguments Ret {A} a.
Arguments Raise {A} e.

Definition res_bind {A B} (r : res A) (k : A -> res B) : res B :=
  match r with
  | Ret a => k a
  | Raise e => Raise e
  end.

(** A computation on the heap.  An exception abandons the call: what it
    had allocated is unreachable and is not kept. *)
Definition M (A : Type) : Type := heap -> res (A * heap).

Definition ret {A} (a : A) : M A := fun h => Ret (a, h).

Definition raise {A} (e : exn) : M A := fun _ => Raise e.

Definition bind {A B} (c : M A) (k : A -> M B) : M B :=
  fun h =>
    match c h with
    | Ret (a, h') => k a h'
    | Raise e => Raise e
    end.

Notation "'let*' x ':=' c 'in' k" := (bind c (fun x => k))
  (at level 10, x name, c at level 100, k at level 200, only parsing).
Notation "'let?' x ':=' c 'in' k" := (res_bind c (fun x => k))
  (at level 10, x name, c at level 100, k at level 200, only parsing).

Definition alloc (o : obj) : M loc := fun h => Ret (length h, h ++ [o]).

Definition read (l : loc) : M obj :=
  fun h =>
    match h !! l with
    | Some o => Ret (o, h)
    | None => Raise AttributeError
    end.

Definition store (l : loc) (o : obj) : M unit :=
  fun h => Ret (tt, <[l := o]> h).

Definition py_assert (b : bool) : M unit :=
  if b then ret tt else raise AssertionError.

Fixpoint mapM {A B} (f : A -> M B) (xs : list A) : M (list B) :=
  match xs with
  | [] => ret []
  | x :: xs' =>
      let* y := f x in
      let* ys := mapM f xs' in
      ret (y :: ys)
  end.

Fixpoint res_mapM {A B} (f : A -> res B) (xs : list A) : res (list B) :=
  match xs with
  | [] => Ret []
  | x :: xs' =>
      let? y := f x in
      let? ys := res_mapM f xs' in
      Ret (y :: ys)
  end.

(** ** [isinstance] and truthiness *)

Definition is_IdlType (o : option obj) : bool :=
  match o with Some (OIdlType _) => true | _ => false end.
Definition is_LiteralConstant (o : option obj) : bool :=
  match o with Some (OLiteralConstant _) => true | _ => false end.
Definition is_RefById (o : option obj) : bool :=
  match o with Some (ORefById _) => true | _ => false end.
Definition is_Value (o : option obj) : bool :=
  match o with Some (OValue _) => true | _ => false end.
Definition is_MemberIR (o : option obj) : bool :=
  match o with Some (OMemberIR _) => true | _ => false end.
Definition is_DictionaryIR (o : option obj) : bool :=
  match o with Some (ODictionaryIR _) => true | _ => false end.
Definition is_Dictionary (o : option obj) : bool :=
  match o with Some (ODictionary _) => true | _ => false end.

(** [isinstance(v, C)]: [v] refers to an object of class [C]. *)
Definition isinstance (C : option obj -> bool) (v : value) (h : heap) : bool :=
  match v with
  | VRef l => C (h !! l)
  | _ => false
  end.

Definition is_None (v : value) : bool :=
  match v with VNone => true | _ => false end.

(** Python truth value; plain objects are true. *)
Definition truthy (v : value) : bool :=
  match v with
  | VNone => false
  | VBool b => b
  | VStr s => negb (String.eqb s EmptyString)
  | VRef _ => true
  end.

(** ** [sorted(xs, key=...)]

    Python's [sorted] is stable and, with [key], compares the keys only;
    the keys are strings compared lexicographically by character code.
    Insertion from the right keeps equal keys in their original order. *)

Section Sorted.
Context {A : Type} (key : A -> string).

Fixpoint insert_by (x : A) (xs : list A) : list A :=
  match xs with
  | [] => [x]
  | y :: ys =>
      if String.leb (key x) (key y) then x :: y :: ys
      else y :: insert_by x ys
  end.

Fixpoint sorted (xs : list A) : list A :=
  match xs with
  | [] => []
  | x :: xs' => insert_by x (sorted xs')
  end.
End Sorted.

(** ** Collaborators that are not part of this file *)

(** Modelled from the spec: [composition_parts] (the [With...] mixins) is
    not among the sources.  A mixin attaches the value object it is given,
    or a fresh empty one when given [None]; anything else is a wrong value
    kind, a contract violation. *)
Definition with_value (v : value) : M loc :=
  match v with
  | VNone => alloc (OValue EmptyString)
  | VRef l =>
      fun h => if is_Value (h !! l) then Ret (l, h) else Raise AssertionError
  | _ => raise AssertionError
  end.

(** Modelled from the spec: [WithComponent.__init__(component=...)] starts
    the component list from the given component name. *)
Definition with_component (v : value) : M loc :=
  match v with
  | VNone => alloc (OValue EmptyString)
  | VStr s => alloc (OValue s)
  | _ => raise AssertionError
  end.

(** Modelled from the spec: [CodeGeneratorInfo(x)] and [Exposure(x)] build a
    new value object from the mutable one of the builder. *)
Definition freeze_value (l : loc) : M loc :=
  let* o := read l in
  match o with
  | OValue s => alloc (OValue s)
  | _ => raise AssertionError
  end.

(** Modelled from the spec: [make_copy] is not among the sources; the spec
    has "produces a structurally independent copy of a builder's
    scalar/aggregate fields".  Strings and booleans are immutable and are
    kept; every object is copied into a new cell, attribute by attribute. *)
Definition make_copy_value (l : loc) : M loc :=
  let* o := read l in
  match o with
  | OValue _ | OIdlType _ | OLiteralConstant _ | ORefById _ => alloc o
  | _ => raise AttributeError
  end.

(** Modelled from the spec: [make_copy] of an attribute that may be
    [None]. *)
Definition make_copy_option (o : option loc) : M (option loc) :=
  match o with
  | None => ret None
  | Some l => let* l' := make_copy_value l in ret (Some l')
  end.

(** Modelled from the spec: [make_copy] of the value objects attached by
    the mixins. *)
Definition make_copy_parts (p : Parts) : M Parts :=
  let* ea := make_copy_value (extended_attributes p) in
  let* cgi := make_copy_value (code_generator_info p) in
  let* ex := make_copy_value (exposure p) in
  let* co := make_copy_value (components p) in
  let* di := make_copy_value (debug_info p) in
  ret {| extended_attributes := ea; code_generator_info := cgi;
         exposure := ex; components := co; debug_info := di |}.

(** Modelled from the spec: [make_copy] of a [DictionaryMember.IR]. *)
Definition make_copy_member_attrs (ir : DictionaryMemberIR) : M loc :=
  let* ty := make_copy_value (mir_idl_type ir) in
  let* dv := make_copy_option (mir_default_value ir) in
  let* ps := make_copy_parts (mir_parts ir) in
  alloc (OMemberIR {| mir_identifier := mir_identifier ir;
                      mir_idl_type := ty;
                      mir_default_value := dv;
                      mir_parts := ps |}).

(** Modelled from the spec: [make_copy] of an element of a list, a member
    builder or a plain value object. *)
Definition make_copy_element (l : loc) : M loc :=
  let* o := read l in
  match o with
  | OMemberIR ir => make_copy_member_attrs ir
  | OValue _ | OIdlType _ | OLiteralConstant _ | ORefById _ => alloc o
  | _ => raise AttributeError
  end.

(** Modelled from the spec: [make_copy] of a Python list. *)
Definition make_copy_list (l : loc) : M loc :=
  let* o := read l in
  match o with
  | OList elems =>
      let* elems' := mapM make_copy_element elems in
      alloc (OList elems')
  | _ => raise AttributeError
  end.

(** Modelled from the spec: [make_copy] of a [Dictionary.IR]. *)
Definition make_copy_dictionary_ir (l : loc) : M loc :=
  let* o := read l in
  match o with
  | ODictionaryIR ir =>
      let* inh := make_copy_option (ir_inherited ir) in
      let* ms := make_copy_list (ir_own_members ir) in
      let* ps := make_copy_parts (ir_parts ir) in
      alloc (ODictionaryIR {| ir_identifier := ir_identifier ir;
                              ir_kind := ir_kind ir;
                              ir_is_partial := ir_is_partial ir;
                              ir_inherited := inh;
                              ir_own_members := ms;
                              ir_parts := ps |})
  | _ => raise AttributeError
  end.

(** ** The builders *)

(** Arguments the mixins accept (see [with_value], [with_component]). *)
Definition part_arg_ok (h : heap) (v : value) : bool :=
  match v with
  | VNone => true
  | VRef l => is_Value (h !! l)
  | _ => false
  end.

Definition component_arg_ok (v : value) : bool :=
  match v with
  | VNone | VStr _ => true
  | _ => false
  end.

Definition assert_on (p : heap -> bool) : M unit :=
  fun h => if p h then Ret (tt, h) else Raise AssertionError.

(** [value.attr] for a value expected to refer to an object. *)
Definition deref (v : value) : M obj :=
  match v with
  | VRef l => read l
  | _ => raise AttributeError
  end.

Definition attr_is_optional (v : value) : M bool :=
  let* o := deref v in
  match o with
  | OIdlType t => ret (is_optional t)
  | _ => raise AttributeError
  end.

Definition ref_of (v : value) : option loc :=
  match v with VRef l => Some l | _ => None end.

(** [DictionaryMember.IR.__init__] *)
Definition DictionaryMember_IR_init
    (identifier : Identifier)
    (idl_type default_value extended_attributes component debug_info : value)
    : M loc :=
  let* _ := assert_on (isinstance is_IdlType idl_type) in
  let* _ := assert_on (fun h => is_None default_value
                            || isinstance is_LiteralConstant default_value h) in
  let* opt := (if negb (truthy default_value) then ret true
               else attr_is_optional idl_type) in
  let* _ := py_assert opt in
  let* ea := with_value extended_attributes in
  let* cgi := with_value VNone in
  let* ex := with_value VNone in
  let* co := with_component component in
  let* di := with_value debug_info in
  match idl_type with
  | VRef ty =>
      alloc (OMemberIR {| mir_identifier := identifier;
                          mir_idl_type := ty;
                          mir_default_value := ref_of default_value;
                          mir_parts := {| extended_attributes := ea;
                                          code_generator_info := cgi;
                                          exposure := ex;
                                          components := co;
                                          debug_info := di |} |})
  | _ => raise AttributeError
  end.

Definition is_bool (v : value) : bool :=
  match v with VBool _ => true | _ => false end.

(** [isinstance(own_members, (list, tuple)) and all(isinstance(member,
    DictionaryMember.IR) for member in own_members)] *)
Definition is_member_ir_list (v : value) (h : heap) : bool :=
  match v with
  | VRef l =>
      match h !! l with
      | Some (OList elems) => forallb (fun m => is_MemberIR (h !! m)) elems
      | _ => false
      end
  | _ => false
  end.

(** [Dictionary.IR.__init__] *)
Definition Dictionary_IR_init
    (identifier : Identifier)
    (is_partial inherited own_members extended_attributes component
       debug_info : value)
    : M loc :=
  let* _ := py_assert (is_bool is_partial) in
  let* _ := assert_on (fun h => is_None inherited
                            || isinstance is_RefById inherited h) in
  let* _ := assert_on (is_member_ir_list own_members) in
  let kind := if truthy is_partial then PARTIAL_DICTIONARY else DICTIONARY in
  let* ea := with_value extended_attributes in
  let* cgi := with_value VNone in
  let* ex := with_value VNone in
  let* co := with_component component in
  let* di := with_value debug_info in
  let* elems := (let* o := deref own_members in
                 match o with
                 | OList elems => ret elems
                 | _ => raise AttributeError
                 end) in
  let* ms := alloc (OList elems) in
  alloc (ODictionaryIR {| ir_identifier := identifier;
                          ir_kind := kind;
                          ir_is_partial := truthy is_partial;
                          ir_inherited := ref_of inherited;
                          ir_own_members := ms;
                          ir_parts := {| extended_attributes := ea;
                                         code_generator_info := cgi;
                                         exposure := ex;
                                         components := co;
                                         debug_info := di |} |}).

(** [Dictionary.IR.iter_all_members] *)
Definition iter_all_members (self : loc) : M (list loc) :=
  let* o := read self in
  match o with
  | ODictionaryIR ir =>
      let* ms := read (ir_own_members ir) in
      match ms with
      | OList elems => ret elems
      | _ => raise AttributeError
      end
  | _ => raise AttributeError
  end.

(** ** The frozen entities *)

(** [DictionaryMember.__init__].  Nothing refers to [self] before the end
    of [__init__], so [self] is allocated once its attributes are known. *)
Definition DictionaryMember_init (ir owner : loc) : M loc :=
  let* _ := assert_on (fun h => is_MemberIR (h !! ir)) in
  let* _ := assert_on (fun h => is_Dictionary (h !! owner)) in
  let* ir := make_copy_element ir in
  let* o := read ir in
  match o with
  | OMemberIR ir =>
      let* ea := with_value (VRef (extended_attributes (mir_parts ir))) in
      let* cgi := freeze_value (code_generator_info (mir_parts ir)) in
      let* ex := freeze_value (exposure (mir_parts ir)) in
      let co := components (mir_parts ir) in
      let* di := with_value (VRef (debug_info (mir_parts ir))) in
      alloc (OMember {| m_identifier := mir_identifier ir;
                        m_owner := owner;
                        m_idl_type := mir_idl_type ir;
                        m_default_value := mir_default_value ir;
                        m_parts := {| extended_attributes := ea;
                                      code_generator_info := cgi;
                                      exposure := ex;
                                      components := co;
                                      debug_info := di |} |})
  | _ => raise AttributeError
  end.

(** The object [self] as it is before [__init__] has assigned anything. *)
Definition blank_Dictionary : Dictionary :=
  {| d_identifier := EmptyString;
     d_inherited := None;
     d_own_members := [];
     d_parts := {| extended_attributes := 0; code_generator_info := 0;
                   exposure := 0; components := 0; debug_info := 0 |} |}.

(** [Dictionary.__init__], preceded by the allocation of [self]: the
    members are built with [owner=self], so [self] has its address before
    they exist; its attributes are assigned when all are known. *)
Definition Dictionary_init (ir : loc) : M loc :=
  let* self := alloc (ODictionary blank_Dictionary) in
  let* _ := assert_on (fun h => is_DictionaryIR (h !! ir)) in
  let* o := read ir in
  let* _ := py_assert (match o with
                    | ODictionaryIR b => negb (ir_is_partial b)
                    | _ => false
                    end) in
  let* ir := make_copy_dictionary_ir ir in
  let* o := read ir in
  match o with
  | ODictionaryIR ir =>
      let* ea := with_value (VRef (extended_attributes (ir_parts ir))) in
      let* cgi := freeze_value (code_generator_info (ir_parts ir)) in
      let* ex := freeze_value (exposure (ir_parts ir)) in
      let co := components (ir_parts ir) in
      let* di := with_value (VRef (debug_info (ir_parts ir))) in
      let* ms := read (ir_own_members ir) in
      match ms with
      | OList elems =>
          let* members :=
            mapM (fun member_ir => DictionaryMember_init member_ir self)
                 elems in
          let* _ := store self
            (ODictionary {| d_identifier := ir_identifier ir;
                            d_inherited := ir_inherited ir;
                            d_own_members := members;
                            d_parts := {| extended_attributes := ea;
                                          code_generator_info := cgi;
                                          exposure := ex;
                                          components := co;
                                          debug_info := di |} |}) in
          ret self
      | _ => raise AttributeError
      end
  | _ => raise AttributeError
  end.

(** ** Queries on the frozen entities *)

Definition get_Dictionary (h : heap) (l : loc) : res Dictionary :=
  match h !! l with
  | Some (ODictionary d) => Ret d
  | _ => Raise AttributeError
  end.

Definition get_Member (h : heap) (l : loc) : res DictionaryMember :=
  match h !! l with
  | Some (OMember m) => Ret m
  | _ => Raise AttributeError
  end.

Definition get_IdlType (h : heap) (l : loc) : res IdlType :=
  match h !! l with
  | Some (OIdlType t) => Ret t
  | _ => Raise AttributeError
  end.

Definition get_LiteralConstant (h : heap) (l : loc) : res LiteralConstant :=
  match h !! l with
  | Some (OLiteralConstant c) => Ret c
  | _ => Raise AttributeError
  end.

Definition get_RefById (h : heap) (l : loc) : res RefById :=
  match h !! l with
  | Some (ORefById r) => Ret r
  | _ => Raise AttributeError
  end.

Definition get_Value (h : heap) (l : loc) : res string :=
  match h !! l with
  | Some (OValue s) => Ret s
  | _ => Raise AttributeError
  end.

(** [DictionaryMember.identifier] (from [WithIdentifier]) *)
Definition member_identifier (h : heap) (self : loc) : res Identifier :=
  let? m := get_Member h self in Ret (m_identifier m).

(** [DictionaryMember.owner] (from [WithOwner]) *)
Definition member_owner (h : heap) (self : loc) : res loc :=
  let? m := get_Member h self in Ret (m_owner m).

(** [DictionaryMember.idl_type] *)
Definition member_idl_type (h : heap) (self : loc) : res loc :=
  let? m := get_Member h self in Ret (m_idl_type m).

(** [DictionaryMember.is_required] *)
Definition member_is_required (h : heap) (self : loc) : res bool :=
  let? m := get_Member h self in
  let? t := get_IdlType h (m_idl_type m) in
  Ret (negb (is_optional t)).

(** [DictionaryMember.default_value] *)
Definition member_default_value (h : heap) (self : loc) : res (option loc) :=
  let? m := get_Member h self in Ret (m_default_value m).

(** [Dictionary.own_members] *)
Definition Dictionary_own_members (h : heap) (self : loc) : res (list loc) :=
  let? d := get_Dictionary h self in Ret (d_own_members d).

(** [Dictionary.is_dictionary] *)
Definition Dictionary_is_dictionary (h : heap) (self : loc) : res bool :=
  let? _ := get_Dictionary h self in Ret true.

(** [sorted(own_members, key=lambda member: member.identifier)]: the keys
    are computed once per element, then the decorated list is sorted. *)
Definition sorted_by_identifier (h : heap) (ms : list loc) : res (list loc) :=
  let? keyed := res_mapM (fun m => let? k := member_identifier h m in
                                   Ret (k, m)) ms in
  Ret (map snd (sorted fst keyed)).

Section Resolver.
(** The identifier-resolution capability: the registry of built
    entities, consulted by [RefById.target_object]. *)
Variable resolver : Identifier -> option loc.

(** Modelled from the spec: [reference.RefById] is not among the
    sources; "given a symbolic reference, return the already-built target
    entity", and a reference that cannot be resolved is a failure of the
    resolver, passed on unchanged. *)
Definition target_object (r : RefById) : res loc :=
  match resolver (ref_identifier r) with
  | Some l => Ret l
  | None => Raise ResolutionFailure
  end.

(** [Dictionary.inherited] *)
Definition Dictionary_inherited (h : heap) (self : loc)
    : res (option loc) :=
  let? d := get_Dictionary h self in
  match d_inherited d with
  | Some r =>
      let? ref := get_RefById h r in
      let? t := target_object ref in
      Ret (Some t)
  | None => Ret None
  end.

(** [collect_inherited_members], the local function of
    [Dictionary.members].  Python recurses without a bound; here the
    recursion depth is the fuel, and [None] stands for a call that has
    not returned within that depth. *)
Fixpoint collect_inherited_members (fuel : nat) (h : heap)
    (dictionary : option loc) : option (res (list loc)) :=
  match fuel with
  | 0 => None
  | S fuel' =>
      match dictionary with
      | None => Some (Ret [])
      | Some d =>
          match Dictionary_inherited h d with
          | Raise e => Some (Raise e)
          | Ret parent =>
              match collect_inherited_members fuel' h parent with
              | None => None
              | Some (Raise e) => Some (Raise e)
              | Some (Ret inherited_members) =>
                  Some (let? own := Dictionary_own_members h d in
                        let? own_sorted := sorted_by_identifier h own in
                        Ret (inherited_members ++ own_sorted))
              end
          end
      end
  end.

(** [Dictionary.members] *)
Definition Dictionary_members (fuel : nat) (h : heap) (self : loc)
    : option (res (list loc)) :=
  collect_inherited_members fuel h (Some self).
End Resolver.

(** ** Ancestry *)

Section Ancestry.
Variable resolver : Identifier -> option loc.
Variable h : heap.

(** [lineage d ds]: [ds] is [d] followed by its parent, grandparent, ...
    up to a dictionary that inherits nothing. *)
Inductive lineage : option loc -> list loc -> Prop :=
| lineage_end : lineage None []
| lineage_step d parent ds :
    Dictionary_inherited resolver h d = Ret parent ->
    lineage parent ds ->
    lineage (Some d) (d :: ds).

(** [finite_chain d n]: following [inherited] from [d] stops after [n]
    steps, at a dictionary without parent or at a failing lookup. *)
Inductive finite_chain : option loc -> nat -> Prop :=
| chain_absent : finite_chain None 0
| chain_raise d e :
    Dictionary_inherited resolver h d = Raise e ->
    finite_chain (Some d) 0
| chain_step d parent n :
    Dictionary_inherited resolver h d = Ret parent ->
    finite_chain parent n ->
    finite_chain (Some d) (S n).

(** The flattened view as the specification words it:
    members(D) = members(parent(D)) followed by the own members of D
    sorted by identifier, and members(absent) is empty.  The argument is
    the lineage of D, most derived first. *)
Fixpoint members_spec (ds : list loc) : res (list loc) :=
  match ds with
  | [] => Ret []
  | d :: ancestors =>
      let? inherited_members := members_spec ancestors in
      let? own := Dictionary_own_members h d in
      let? own_sorted := sorted_by_identifier h own in
      Ret (inherited_members ++ own_sorted)
  end.
End Ancestry.

(** Identifiers in lexicographic order. *)
Definition id_le (a b : Identifier) : Prop := String.leb a b = true.

Definition key_le {A} (key : A -> string) (a b : A) : Prop :=
  id_le (key a) (key b).

(** ** What a builder holds, what a frozen entity shows *)

Record PartsContents := {
  c_extended_attributes : string;
  c_code_generator_info : string;
  c_exposure : string;
  c_components : string;
  c_debug_info : string
}.

Record MemberContents := {
  c_member_identifier : Identifier;
  c_idl_type : IdlType;
  c_default_value : option LiteralConstant;
  c_member_parts : PartsContents
}.

Record BuilderContents := {
  c_identifier : Identifier;
  c_is_partial : bool;
  c_inherited : option RefById;
  c_own_members : list MemberContents;
  c_parts : PartsContents
}.

Record MemberView := {
  v_member : MemberContents;
  v_owner : loc;
  v_is_required : bool
}.

Record DictionaryView := {
  v_identifier : Identifier;
  v_inherited : option RefById;
  v_own_members : list MemberView;
  v_parts : PartsContents
}.

Definition get_option {A} (get : heap -> loc -> res A) (h : heap)
    (o : option loc) : res (option A) :=
  match o with
  | None => Ret None
  | Some l => let? a := get h l in Ret (Some a)
  end.

Definition parts_contents (h : heap) (p : Parts) : res PartsContents :=
  let? ea := get_Value h (extended_attributes p) in
  let? cgi := get_Value h (code_generator_info p) in
  let? ex := get_Value h (exposure p) in
  let? co := get_Value h (components p) in
  let? di := get_Value h (debug_info p) in
  Ret {| c_extended_attributes := ea; c_code_generator_info := cgi;
         c_exposure := ex; c_components := co; c_debug_info := di |}.

Definition member_ir_contents (h : heap) (l : loc) : res MemberContents :=
  match h !! l with
  | Some (OMemberIR ir) =>
      let? ty := get_IdlType h (mir_idl_type ir) in
      let? dv := get_option get_LiteralConstant h (mir_default_value ir) in
      let? ps := parts_contents h (mir_parts ir) in
      Ret {| c_member_identifier := mir_identifier ir;
             c_idl_type := ty;
             c_default_value := dv;
             c_member_parts := ps |}
  | _ => Raise AttributeError
  end.

Definition builder_contents (h : heap) (l : loc) : res BuilderContents :=
  match h !! l with
  | Some (ODictionaryIR ir) =>
      let? inh := get_option get_RefById h (ir_inherited ir) in
      match h !! ir_own_members ir with
      | Some (OList elems) =>
          let? ms := res_mapM (member_ir_contents h) elems in
          let? ps := parts_contents h (ir_parts ir) in
          Ret {| c_identifier := ir_identifier ir;
                 c_is_partial := ir_is_partial ir;
                 c_inherited := inh;
                 c_own_members := ms;
                 c_parts := ps |}
      | _ => Raise AttributeError
      end
  | _ => Raise AttributeError
  end.

(** Everything the accessors of a frozen member return. *)
Definition member_view (h : heap) (l : loc) : res MemberView :=
  let? identifier := member_identifier h l in
  let? owner := member_owner h l in
  let? ty := member_idl_type h l in
  let? ty := get_IdlType h ty in
  let? dv := member_default_value h l in
  let? dv := get_option get_LiteralConstant h dv in
  let? required := member_is_required h l in
  let? m := get_Member h l in
  let? ps := parts_contents h (m_parts m) in
  Ret {| v_member := {| c_member_identifier := identifier;
                        c_idl_type := ty;
                        c_default_value := dv;
                        c_member_parts := ps |};
         v_owner := owner;
         v_is_required := required |}.

(** Everything the accessors of a frozen dictionary return, the members
    by what their own accessors return. *)
Definition Dictionary_view (h : heap) (l : loc) : res DictionaryView :=
  let? d := get_Dictionary h l in
  let? inh := get_option get_RefById h (d_inherited d) in
  let? own := Dictionary_own_members h l in
  let? ms := res_mapM (member_view h) own in
  let? ps := parts_contents h (d_parts d) in
  Ret {| v_identifier := d_identifier d;
         v_inherited := inh;
         v_own_members := ms;
         v_parts := ps |}.

(** The frozen entity the specification describes for a builder: the same
    fields, each member owned by the new dictionary, required exactly when
    its type is not optional. *)
Definition frozen_member (owner : loc) (c : MemberContents) : MemberView :=
  {| v_member := c;
     v_owner := owner;
     v_is_required := negb (is_optional (c_idl_type c)) |}.

Definition frozen_dictionary (self : loc) (c : BuilderContents)
    : DictionaryView :=
  {| v_identifier := c_identifier c;
     v_inherited := c_inherited c;
     v_own_members := map (frozen_member self) (c_own_members c);
     v_parts := c_parts c |}.

(** ** Mutation of builders *)

(** What other code can do to the heap once it holds a reference:
    assign to an existing object, or create a new one. *)
Inductive mutation :=
| SetCell (l : loc) (o : obj)
| NewCell (o : obj).

Definition mutate1 (h : heap) (m : mutation) : heap :=
  match m with
  | SetCell l o => <[l := o]> h
  | NewCell o => h ++ [o]
  end.

Definition mutate (ms : list mutation) (h : heap) : heap :=
  fold_left mutate1 ms h.

(** The objects a builder consists of: the builder, the references and
    value objects it holds, its member list and the member builders with
    theirs. *)
Definition option_cells (o : option loc) : list loc :=
  match o with Some l => [l] | None => [] end.

Definition parts_cells (p : Parts) : list loc :=
  [extended_attributes p; code_generator_info p; exposure p; components p;
   debug_info p].

Definition member_ir_cells (h : heap) (l : loc) : list loc :=
  l :: match h !! l with
       | Some (OMemberIR ir) =>
           mir_idl_type ir :: option_cells (mir_default_value ir)
             ++ parts_cells (mir_parts ir)
       | _ => []
       end.

Definition builder_cells (h : heap) (l : loc) : list loc :=
  l :: match h !! l with
       | Some (ODictionaryIR ir) =>
           option_cells (ir_inherited ir)
             ++ parts_cells (ir_parts ir)
             ++ ir_own_members ir
             :: match h !! ir_own_members ir with
                | Some (OList elems) => concat (map (member_ir_cells h) elems)
                | _ => []
                end
       | _ => []
       end.

(** A mutation of the builder made of [cells], after a freeze that left
    the heap with [hi] objects: it assigns to the builder's objects, or to
    objects created after the freeze. *)
Definition mutates_builder (cells : list loc) (hi : nat) (m : mutation)
    : bool :=
  match m with
  | SetCell l _ => existsb (Nat.eqb l) cells || (hi <=? l)
  | NewCell _ => true
  end.

(** ** A running example: Base and Derived *)

Local Open Scope string_scope.

Definition mk_member (name : string) (optional : bool) : M loc :=
  let* ty := alloc (OIdlType {| type_name := "long";
                                is_optional := optional |}) in
  DictionaryMember_IR_init name (VRef ty) VNone VNone VNone VNone.

Definition mk_builder (name : string) (is_partial : bool)
    (inherited : option string) (members : list string) : M loc :=
  let* ms := mapM (fun n => mk_member n false) members in
  let* lst := alloc (OList ms) in
  let* inh := (match inherited with
               | Some p =>
                   let* r := alloc (ORefById {| ref_identifier := p |}) in
                   ret (VRef r)
               | None => ret VNone
               end) in
  Dictionary_IR_init name (VBool is_partial) inh (VRef lst) VNone VNone VNone.

Definition run {A} (c : M A) (h : heap) (default : A) : A * heap :=
  match c h with
  | Ret r => r
  | Raise _ => (default, h)
  end.

(** Base has own members [z, a]; Derived inherits Base and has [m, b]. *)
Definition base_and_derived : M (loc * loc) :=
  let* b := mk_builder "Base" false None ["z"; "a"]%string in
  let* base := Dictionary_init b in
  let* d := mk_builder "Derived" false (Some "Base"%string)
              ["m"; "b"]%string in
  let* derived := Dictionary_init d in
  ret (base, derived).

Definition example_heap : heap := snd (run base_and_derived [] (0, 0)).
Definition Base : loc := fst (fst (run base_and_derived [] (0, 0))).
Definition Derived : loc := snd (fst (run base_and_derived [] (0, 0))).

Definition example_resolver (id : Identifier) : option loc :=
  if String.eqb id "Base" then Some Base else None.

(** The builder of Derived alone, before anything is frozen. *)
Definition builder_example : loc * heap :=
  run (mk_builder "Derived" false (Some "Base"%string) ["m"; "b"]%string)
      [] 0.

Definition no_parts : PartsContents :=
  {| c_extended_attributes := ""; c_code_generator_info := "";
     c_exposure := ""; c_components := ""; c_debug_info := "" |}.

Definition required_member (name : string) : MemberContents :=
  {| c_member_identifier := name;
     c_idl_type := {| type_name := "long"; is_optional := false |};
     c_default_value := None;
     c_member_parts := no_parts |}.

Definition Derived_contents : BuilderContents :=
  {| c_identifier := "Derived";
     c_is_partial := false;
     c_inherited := Some {| ref_identifier := "Base" |};
     c_own_members := [required_member "m"; required_member "b"];
     c_parts := no_parts |}.

Definition frozen_example : loc * heap :=
  run (Dictionary_init (fst builder_example)) (snd builder_example) 0.

(** The builder renamed, marked partial, stripped of its parent and of
    its members, one of its value objects replaced, a new object made. *)
Definition example_mutations : list mutation :=
  match snd builder_example !! fst builder_example with
  | Some (ODictionaryIR ir) =>
      [SetCell (fst builder_example)
         (ODictionaryIR {| ir_identifier := "Renamed";
                           ir_kind := PARTIAL_DICTIONARY;
                           ir_is_partial := true;
                           ir_inherited := None;
                           ir_own_members := ir_own_members ir;
                           ir_parts := ir_parts ir |});
       SetCell (ir_own_members ir) (OList []);
       SetCell (extended_attributes (ir_parts ir)) (OValue "changed");
       NewCell (OValue "new")]
  | _ => []
  end.

(** A partial fragment. *)
Definition partial_example : loc * heap :=
  run (mk_builder "Fragment" true None ["x"]%string) [] 0.

(** A dictionary whose only member has an optional type and a default. *)
Definition optional_example : loc * heap :=
  run (let* ty := alloc (OIdlType {| type_name := "long";
                                     is_optional := true |}) in
       let* lit := alloc (OLiteralConstant {| literal := "0" |}) in
       let* m := DictionaryMember_IR_init "o" (VRef ty) (VRef lit)
                   VNone VNone VNone in
       let* lst := alloc (OList [m]) in
       let* b := Dictionary_IR_init "Options" (VBool false) VNone (VRef lst)
                   VNone VNone VNone in
       Dictionary_init b) [] 0.

Definition optional_member : loc :=
  match Dictionary_own_members (snd optional_example) (fst optional_example)
  with
  | Ret (m :: _) => m
  | _ => 0
  end.

Definition optional_member_type : loc :=
  match member_idl_type (snd optional_example) optional_member with
  | Ret ty => ty
  | Raise _ => 0
  end.

(** An optional type, a literal, a type that is not optional. *)
Definition member_args_heap : heap :=
  [OIdlType {| type_name := "long"; is_optional := true |};
   OLiteralConstant {| literal := "0" |};
   OIdlType {| type_name := "long"; is_optional := false |}].

(** The reading of "building resolves the inherited reference into a
    concrete parent": whenever a builder with a reference has been frozen,
    the resolver has a dictionary for that reference. *)
Definition freeze_resolves_inherited : Prop :=
  forall (resolver : Identifier -> option loc) (h : heap) ir c r d h',
    builder_contents h ir = Ret c ->
    c_inherited c = Some r ->
    Dictionary_init ir h = Ret (d, h') ->
    exists parent, target_object resolver r = Ret parent.

Local Close Scope string_scope.

(** ** Where objects live

    [cell lo h l o]: the object [o] is at address [l], and [l] is not
    below [lo].  The predicates built from it say that a whole entity, with
    everything it refers to, lies at or above [lo]: after a freeze, with
    [lo] the size of the heap before it, that is "made by the freeze". *)

Definition cell (lo : nat) (h : heap) (l : loc) (o : obj) : Prop :=
  lo <= l /\ h !! l = Some o.

(** [h'] has every object that [h] has at or above [lo]. *)
Definition agree (lo : nat) (h h' : heap) : Prop :=
  forall l o, lo <= l -> h !! l = Some o -> h' !! l = Some o.

Definition option_at {X} (inj : X -> obj) (lo : nat) (h : heap)
    (o : option loc) (x : option X) : Prop :=
  match o, x with
  | None, None => True
  | Some l, Some x => cell lo h l (inj x)
  | _, _ => False
  end.

Definition parts_at (lo : nat) (h : heap) (p : Parts) (c : PartsContents)
    : Prop :=
  cell lo h (extended_attributes p) (OValue (c_extended_attributes c))
  /\ cell lo h (code_generator_info p) (OValue (c_code_generator_info c))
  /\ cell lo h (exposure p) (OValue (c_exposure c))
  /\ cell lo h (components p) (OValue (c_components c))
  /\ cell lo h (debug_info p) (OValue (c_debug_info c)).

Definition member_ir_at (lo : nat) (h : heap) (l : loc) (c : MemberContents)
    : Prop :=
  exists ir,
    cell lo h l (OMemberIR ir)
    /\ mir_identifier ir = c_member_identifier c
    /\ cell lo h (mir_idl_type ir) (OIdlType (c_idl_type c))
    /\ option_at OLiteralConstant lo h (mir_default_value ir)
         (c_default_value c)
    /\ parts_at lo h (mir_parts ir) (c_member_parts c).

Definition builder_at (lo : nat) (h : heap) (l : loc) (c : BuilderContents)
    : Prop :=
  exists ir elems,
    cell lo h l (ODictionaryIR ir)
    /\ ir_identifier ir = c_identifier c
    /\ ir_is_partial ir = c_is_partial c
    /\ option_at ORefById lo h (ir_inherited ir) (c_inherited c)
    /\ cell lo h (ir_own_members ir) (OList elems)
    /\ Forall2 (member_ir_at lo h) elems (c_own_members c)
    /\ parts_at lo h (ir_parts ir) (c_parts c).

Definition member_at (lo : nat) (h : heap) (l : loc) (v : MemberView)
    : Prop :=
  exists m,
    cell lo h l (OMember m)
    /\ m_identifier m = c_member_identifier (v_member v)
    /\ m_owner m = v_owner v
    /\ cell lo h (m_idl_type m) (OIdlType (c_idl_type (v_member v)))
    /\ option_at OLiteralConstant lo h (m_default_value m)
         (c_default_value (v_member v))
    /\ parts_at lo h (m_parts m) (c_member_parts (v_member v))
    /\ v_is_required v = negb (is_optional (c_idl_type (v_member v))).

Definition dictionary_at (lo : nat) (h : heap) (l : loc) (v : DictionaryView)
    : Prop :=
  exists d,
    cell lo h l (ODictionary d)
    /\ d_identifier d = v_identifier v
    /\ option_at ORefById lo h (d_inherited d) (v_inherited v)
    /\ Forall2 (member_at lo h) (d_own_members d) (v_own_members v)
    /\ parts_at lo h (d_parts d) (v_parts v).

(** The objects copied as they are by [make_copy_value]. *)
Definition is_plain (o : obj) : bool :=
  match o with
  | OValue _ | OIdlType _ | OLiteralConstant _ | ORefById _ => true
  | _ => false
  end.

(** ** Arguments of the builders *)

(** The argument that passes an optional reference. *)
Definition value_of (o : option loc) : value :=
  match o with
  | Some l => VRef l
  | None => VNone
  end.

(** An argument that is a reference refers to an existing object. *)
Definition allocated (h : heap) (v : value) : bool :=
  match v with
  | VRef l => l <? length h
  | _ => true
  end.

(** What the value object attached for an accepted argument holds. *)
Definition part_arg_contents (h : heap) (v : value) : string :=
  match v with
  | VRef l =>
      match h !! l with
      | Some (OValue s) => s
      | _ => EmptyString
      end
  | _ => EmptyString
  end.

Definition component_arg_contents (v : value) : string :=
  match v with
  | VStr s => s
  | _ => EmptyString
  end.

Definition arg_parts (h : heap) (extended_attributes component debug_info
    : value) : PartsContents :=
  {| c_extended_attributes := part_arg_contents h extended_attributes;
     c_code_generator_info := EmptyString;
     c_exposure := EmptyString;
     c_components := component_arg_contents component;
     c_debug_info := part_arg_contents h debug_info |}.

(** [idl_type.is_optional] for an argument that is an [IdlType]. *)
Definition type_is_optional (h : heap) (v : value) : bool :=
  match v with
  | VRef l =>
      match h !! l with
      | Some (OIdlType t) => is_optional t
      | _ => false
      end
  | _ => false
  end.

(** The arguments [DictionaryMember.IR.__init__] accepts: those passing
    its three assertions and the checks of the mixins. *)
Definition member_args_ok (h : heap)
    (idl_type default_value extended_attributes component debug_info : value)
    : bool :=
  isinstance is_IdlType idl_type h
  && (is_None default_value || isinstance is_LiteralConstant default_value h)
  && (negb (truthy default_value) || type_is_optional h idl_type)
  && part_arg_ok h extended_attributes
  && component_arg_ok component
  && part_arg_ok h debug_info.

(** The arguments [Dictionary.IR.__init__] accepts. *)
Definition dictionary_args_ok (h : heap)
    (is_partial inherited own_members extended_attributes component
       debug_info : value) : bool :=
  is_bool is_partial
  && (is_None inherited || isinstance is_RefById inherited h)
  && is_member_ir_list own_members h
  && part_arg_ok h extended_attributes
  && component_arg_ok component
  && part_arg_ok h debug_info.


(** [fails_above resolver h d e n]: following [inherited] from [d], the
    lookup of a parent raises [e] after [n] successful steps. *)
Inductive fails_above (resolver : Identifier -> option loc) (h : heap)
    : loc -> exn -> nat -> Prop :=
| fails_here d e :
    Dictionary_inherited resolver h d = Raise e ->
    fails_above resolver h d e 0
| fails_further d parent e n :
    Dictionary_inherited resolver h d = Ret (Some parent) ->
    fails_above resolver h parent e n ->
    fails_above resolver h d e (S n).

(** ** Further examples *)

Local Open Scope string_scope.

(** A member builder with an optional type and a default, as made by the
    constructor. *)
Definition member_example : loc * heap :=
  run (DictionaryMember_IR_init "x" (VRef 0) (VRef 1) VNone VNone VNone)
      member_args_heap 0.

(** The same arguments beside a dictionary that can serve as owner. *)
Definition owner_example_heap : heap :=
  member_args_heap ++ [ODictionary blank_Dictionary].

Definition owned_member_example : loc * heap :=
  run (DictionaryMember_IR_init "x" (VRef 0) (VRef 1) VNone VNone VNone)
      owner_example_heap 0.

(** Two member builders and the list that holds them. *)
Definition members_list_example : loc * heap :=
  run (let* ms := mapM (fun n => mk_member n false) ["m"; "b"] in
       alloc (OList ms)) [] 0.

Definition example_elems : list loc :=
  match snd members_list_example !! fst members_list_example with
  | Some (OList elems) => elems
  | _ => []
  end.

(** Base frozen, and the builder of Derived beside it, not yet frozen. *)
Definition base_and_builder : (loc * loc) * heap :=
  run (let* b := mk_builder "Base" false None ["z"; "a"] in
       let* base := Dictionary_init b in
       let* d := mk_builder "Derived" false (Some "Base") ["m"; "b"] in
       ret (base, d)) [] (0, 0).

(** Base names a parent, Root, that nothing resolves; Derived inherits
    Base. *)
Definition unrooted_example : (loc * loc) * heap :=
  run (let* b := mk_builder "Base" false (Some "Root") ["z"; "a"] in
       let* base := Dictionary_init b in
       let* d := mk_builder "Derived" false (Some "Base") ["m"; "b"] in
       let* derived := Dictionary_init d in
       ret (base, derived)) [] (0, 0).

Definition unrooted_resolver (id : Identifier) : option loc :=
  if String.eqb id "Base" then Some (fst (fst unrooted_example)) else None.

Definition members_of (h : heap) (d : loc) : list loc :=
  match Dictionary_members example_resolver 3 h d with
  | Some (Ret ms) => ms
  | _ => []
  end.



Definition first_member_ir (h : heap) (ir : loc) : loc :=
  match iter_all_members ir h with
  | Ret (m :: _, _) => m
  | _ => 0
  end.

Local Close Scope string_scope.

(** * Properties *)

(** ** Sorting by key *)


Lemma id_le_trans a b c : id_le a b -> id_le b c -> id_le a c.
Proof.
  unfold id_le, String.leb. revert b c.
  induction a as [|x a IH]; intros [|y b] [|z c]; simpl; try easy.
  unfold Ascii.compare.
  destruct (N.compare_spec (N_of_ascii x) (N_of_ascii y)),
           (N.compare_spec (N_of_ascii y) (N_of_ascii z)),
           (N.compare_spec (N_of_ascii x) (N_of_ascii z));
    try lia; try easy; apply IH.
Qed.

Section SortedFacts.
Context {A : Type} (key : A -> string).

Local Abbreviation key_le := (key_le key).

Lemma insert_by_perm x xs : Permutation (x :: xs) (insert_by key x xs).
Proof.
  induction xs as [|y ys IH]; simpl; [reflexivity|].
  destruct (String.leb (key x) (key y)); [reflexivity|].
  rewrite perm_swap. now apply perm_skip.
Qed.

Lemma sorted_perm xs : Permutation xs (sorted key xs).
Proof.
  induction xs as [|x xs IH]; simpl; [constructor|].
  rewrite <- insert_by_perm. now apply perm_skip.
Qed.

Lemma insert_by_hd x xs a :
  HdRel key_le a xs -> key_le a x -> HdRel key_le a (insert_by key x xs).
Proof.
  intros Hhd Hax. destruct xs as [|y ys]; simpl.
  - now constructor.
  - destruct (String.leb (key x) (key y)); constructor; auto.
    now inversion Hhd.
Qed.

Lemma insert_by_sorted x xs :
  Sorted key_le xs -> Sorted key_le (insert_by key x xs).
Proof.
  induction 1 as [|y ys Hs IH Hhd]; simpl.
  - repeat constructor.
  - destruct (String.leb (key x) (key y)) eqn:E.
    + constructor; [now constructor|]. constructor. exact E.
    + constructor; [exact IH|].
      apply insert_by_hd; [exact Hhd|].
      destruct (String.leb_total (key x) (key y)) as [F|F];
        [congruence|exact F].
Qed.

Lemma sorted_Sorted xs : Sorted key_le (sorted key xs).
Proof.
  induction xs as [|x xs IH]; simpl; [constructor|].
  now apply insert_by_sorted.
Qed.


End SortedFacts.

Lemma Sorted_map_fst {B} (l : list (string * B)) :
  Sorted (key_le fst) l -> Sorted id_le (map fst l).
Proof.
  induction 1 as [|x xs Hs IH Hhd]; simpl; constructor; auto.
  destruct Hhd; simpl; constructor; auto.
Qed.

(** ** Reading through lists *)

Lemma res_mapM_keyed (h : heap) (ms : list loc) keyed :
  res_mapM (fun m => let? k := member_identifier h m in Ret (k, m)) ms
    = Ret keyed ->
  map snd keyed = ms
  /\ Forall (fun km => member_identifier h (snd km) = Ret (fst km)) keyed.
Proof.
  revert keyed. induction ms as [|m ms IH]; simpl; intros keyed H.
  - inversion H. split; constructor.
  - destruct (member_identifier h m) as [k|e] eqn:Hk; simpl in H;
      [|discriminate].
    destruct (res_mapM _ ms) as [keyed'|e]; simpl in H; [|discriminate].
    inversion H; subst; clear H. destruct (IH _ eq_refl) as [IH1 IH2].
    split; simpl; [now f_equal|]. constructor; auto.
Qed.

Lemma res_mapM_map_snd (h : heap) (keyed : list (Identifier * loc)) :
  Forall (fun km => member_identifier h (snd km) = Ret (fst km)) keyed ->
  res_mapM (member_identifier h) (map snd keyed) = Ret (map fst keyed).
Proof.
  induction 1 as [|km keyed Hkm _ IH]; simpl; [reflexivity|].
  now rewrite Hkm, IH.
Qed.

(** A level of the flattened view is a rearrangement of the own members
    whose identifiers ascend. *)
Lemma sorted_by_identifier_spec (h : heap) (own s : list loc) :
  sorted_by_identifier h own = Ret s ->
  Permutation own s
  /\ exists ks, res_mapM (member_identifier h) s = Ret ks
                /\ StronglySorted id_le ks.
Proof.
  unfold sorted_by_identifier. intros H.
  destruct (res_mapM _ own) as [keyed|e] eqn:Hk; simpl in H; [|discriminate].
  inversion H; subst; clear H.
  destruct (res_mapM_keyed _ _ _ Hk) as [Hsnd Hall]. split.
  - rewrite <- Hsnd. apply Permutation_map, sorted_perm.
  - exists (map fst (sorted fst keyed)). split.
    + apply res_mapM_map_snd.
      eapply Permutation_Forall; [apply sorted_perm|exact Hall].
    + apply Sorted_StronglySorted; [exact id_le_trans|].
      apply Sorted_map_fst, sorted_Sorted.
Qed.

(** ** The flattened view *)

Section MembersFacts.
Variable resolver : Identifier -> option loc.
Variable h : heap.

Lemma collect_lineage p ds :
  lineage resolver h p ds ->
  forall fuel, length ds < fuel ->
  collect_inherited_members resolver fuel h p = Some (members_spec h ds).
Proof.
  induction 1 as [|d parent ds Hinh Hlin IH]; intros fuel Hfuel;
    (destruct fuel as [|fuel]; [simpl in Hfuel; lia|]); simpl.
  - reflexivity.
  - rewrite Hinh, IH by (simpl in Hfuel; lia).
    now destruct (members_spec h ds).
Qed.

Lemma collect_finite_chain p n :
  finite_chain resolver h p n ->
  forall fuel, n < fuel ->
  collect_inherited_members resolver fuel h p <> None.
Proof.
  induction 1 as [|d e Hinh|d parent n Hinh Hch IH]; intros fuel Hfuel;
    (destruct fuel as [|fuel]; [lia|]); simpl.
  - discriminate.
  - now rewrite Hinh.
  - rewrite Hinh. specialize (IH fuel ltac:(lia)).
    destruct (collect_inherited_members resolver fuel h parent)
      as [[ms|e]|]; [discriminate|discriminate|contradiction].
Qed.

(** More fuel never changes an answer. *)
Lemma collect_fuel_mono fuel p r :
  collect_inherited_members resolver fuel h p = Some r ->
  forall fuel', fuel <= fuel' ->
  collect_inherited_members resolver fuel' h p = Some r.
Proof.
  revert p r. induction fuel as [|fuel IH]; intros p r H fuel' Hle;
    [discriminate|].
  destruct fuel' as [|fuel']; [lia|]. simpl in *.
  destruct p as [d|]; [|exact H].
  destruct (Dictionary_inherited resolver h d) as [parent|e]; [|exact H].
  destruct (collect_inherited_members resolver fuel h parent) as [r'|] eqn:E;
    [|discriminate].
  now rewrite (IH _ _ E fuel') by lia.
Qed.

(** Without a guard a dictionary that is its own parent is never left. *)
Lemma collect_self_cycle d :
  Dictionary_inherited resolver h d = Ret (Some d) ->
  forall fuel, collect_inherited_members resolver fuel h (Some d) = None.
Proof.
  intros Hinh. induction fuel as [|fuel IH]; simpl; [reflexivity|].
  now rewrite Hinh, IH.
Qed.
End MembersFacts.

(** ** Cells and agreement *)

Ltac conjs := repeat match goal with |- _ /\ _ => split end.

Lemma agree_refl lo (h : heap) : agree lo h h.
Proof. now intros l o _ H. Qed.

Lemma agree_trans lo (h1 h2 h3 : heap) :
  agree lo h1 h2 -> agree lo h2 h3 -> agree lo h1 h3.
Proof. intros H12 H23 l o Hl H. eauto. Qed.

Lemma agree_app lo (h t : heap) : agree lo h (h ++ t).
Proof. intros l o _ H. now apply lookup_app_l_Some. Qed.

Lemma agree_insert_below lo (h : heap) k o :
  k < lo -> agree lo h (<[k := o]> h).
Proof.
  intros Hk l o' Hl H. rewrite list_lookup_insert_ne by lia. exact H.
Qed.

Lemma agree_weaken lo lo' (h h' : heap) :
  lo <= lo' -> agree lo h h' -> agree lo' h h'.
Proof. intros Hle H l o Hl. apply H. lia. Qed.

Lemma cell_mono lo lo' (h h' : heap) l o :
  cell lo h l o -> lo' <= lo -> agree lo h h' -> cell lo' h' l o.
Proof. intros [Hl H] Hle Hag. split; [lia|]. now apply Hag. Qed.

Lemma cell_alloc (h : heap) o : cell (length h) (h ++ [o]) (length h) o.
Proof. split; [lia|]. now rewrite lookup_app_r, Nat.sub_diag by lia. Qed.

Lemma cell_allocated lo (h : heap) l o : cell lo h l o -> l < length h.
Proof. intros [_ H]. now apply lookup_lt_Some in H. Qed.

Lemma option_at_mono {X} (inj : X -> obj) lo lo' (h h' : heap) o x :
  option_at inj lo h o x -> lo' <= lo -> agree lo h h' ->
  option_at inj lo' h' o x.
Proof.
  destruct o, x; simpl; auto. intros. eapply cell_mono; eauto.
Qed.

Lemma parts_at_mono lo lo' (h h' : heap) p c :
  parts_at lo h p c -> lo' <= lo -> agree lo h h' -> parts_at lo' h' p c.
Proof.
  intros (H1 & H2 & H3 & H4 & H5) Hle Hag.
  unfold parts_at. conjs; eauto using cell_mono.
Qed.

Lemma member_ir_at_mono lo lo' (h h' : heap) l c :
  member_ir_at lo h l c -> lo' <= lo -> agree lo h h' ->
  member_ir_at lo' h' l c.
Proof.
  intros (ir & H1 & H2 & H3 & H4 & H5) Hle Hag. exists ir.
  conjs; eauto using cell_mono, option_at_mono, parts_at_mono.
Qed.

Lemma member_at_mono lo lo' (h h' : heap) l v :
  member_at lo h l v -> lo' <= lo -> agree lo h h' -> member_at lo' h' l v.
Proof.
  intros (m & H1 & H2 & H3 & H4 & H5 & H6 & H7) Hle Hag. exists m.
  conjs; eauto using cell_mono, option_at_mono, parts_at_mono.
Qed.

Lemma builder_at_mono lo lo' (h h' : heap) l c :
  builder_at lo h l c -> lo' <= lo -> agree lo h h' -> builder_at lo' h' l c.
Proof.
  intros (ir & elems & H1 & H2 & H3 & H4 & H5 & H6 & H7) Hle Hag.
  exists ir, elems.
  conjs; eauto using cell_mono, option_at_mono, parts_at_mono.
  eapply Forall2_impl; [exact H6|]. eauto using member_ir_at_mono.
Qed.

Lemma dictionary_at_mono lo lo' (h h' : heap) l v :
  dictionary_at lo h l v -> lo' <= lo -> agree lo h h' ->
  dictionary_at lo' h' l v.
Proof.
  intros (d & H1 & H2 & H3 & H4 & H5) Hle Hag. exists d.
  conjs; eauto using cell_mono, option_at_mono, parts_at_mono.
  eapply Forall2_impl; [exact H4|]. eauto using member_at_mono.
Qed.

(** ** From what is read to where it lives, and back *)

Lemma res_bind_Ret {A B} (r : res A) (k : A -> res B) b :
  res_bind r k = Ret b -> exists a, r = Ret a /\ k a = Ret b.
Proof. destruct r as [a|e]; simpl; [eauto|discriminate]. Qed.

Ltac res_inv H :=
  repeat (let a := fresh "a" in
          let E := fresh "E" in
          apply res_bind_Ret in H; destruct H as (a & E & H)).

Lemma get_Value_cell (h : heap) l s :
  get_Value h l = Ret s <-> cell 0 h l (OValue s).
Proof.
  unfold get_Value, cell. split.
  - destruct (h !! l) as [[]|]; intros H; inversion H; split; [lia|easy].
  - intros [_ ->]. reflexivity.
Qed.

Lemma get_IdlType_cell (h : heap) l t :
  get_IdlType h l = Ret t <-> cell 0 h l (OIdlType t).
Proof.
  unfold get_IdlType, cell. split.
  - destruct (h !! l) as [[]|]; intros H; inversion H; split; [lia|easy].
  - intros [_ ->]. reflexivity.
Qed.

Lemma get_LiteralConstant_cell (h : heap) l c :
  get_LiteralConstant h l = Ret c <-> cell 0 h l (OLiteralConstant c).
Proof.
  unfold get_LiteralConstant, cell. split.
  - destruct (h !! l) as [[]|]; intros H; inversion H; split; [lia|easy].
  - intros [_ ->]. reflexivity.
Qed.

Lemma get_RefById_cell (h : heap) l r :
  get_RefById h l = Ret r <-> cell 0 h l (ORefById r).
Proof.
  unfold get_RefById, cell. split.
  - destruct (h !! l) as [[]|]; intros H; inversion H; split; [lia|easy].
  - intros [_ ->]. reflexivity.
Qed.

Lemma cell_zero lo (h : heap) l o : cell lo h l o -> cell 0 h l o.
Proof. intros [_ H]. split; [lia|exact H]. Qed.

Lemma parts_contents_at (h : heap) p c :
  parts_contents h p = Ret c -> parts_at 0 h p c.
Proof.
  unfold parts_contents. intros H. res_inv H. inversion H; subst; clear H.
  unfold parts_at; simpl. conjs; now apply get_Value_cell.
Qed.

Lemma parts_at_contents lo (h : heap) p c :
  parts_at lo h p c -> parts_contents h p = Ret c.
Proof.
  intros (H1 & H2 & H3 & H4 & H5). unfold parts_contents.
  apply cell_zero, get_Value_cell in H1, H2, H3, H4, H5.
  rewrite H1, H2, H3, H4, H5. simpl. now destruct c.
Qed.

Lemma get_option_literal_at (h : heap) o x :
  get_option get_LiteralConstant h o = Ret x ->
  option_at OLiteralConstant 0 h o x.
Proof.
  destruct o as [l|]; simpl; intros H.
  - res_inv H. inversion H; subst. now apply get_LiteralConstant_cell.
  - now inversion H.
Qed.

Lemma option_at_get_literal lo (h : heap) o x :
  option_at OLiteralConstant lo h o x ->
  get_option get_LiteralConstant h o = Ret x.
Proof.
  destruct o as [l|], x as [c|]; simpl; try easy.
  intros H. apply cell_zero, get_LiteralConstant_cell in H. now rewrite H.
Qed.

Lemma get_option_ref_at (h : heap) o x :
  get_option get_RefById h o = Ret x -> option_at ORefById 0 h o x.
Proof.
  destruct o as [l|]; simpl; intros H.
  - res_inv H. inversion H; subst. now apply get_RefById_cell.
  - now inversion H.
Qed.

Lemma option_at_get_ref lo (h : heap) o x :
  option_at ORefById lo h o x -> get_option get_RefById h o = Ret x.
Proof.
  destruct o as [l|], x as [c|]; simpl; try easy.
  intros H. apply cell_zero, get_RefById_cell in H. now rewrite H.
Qed.

Lemma member_ir_contents_at (h : heap) l c :
  member_ir_contents h l = Ret c -> member_ir_at 0 h l c.
Proof.
  unfold member_ir_contents. intros H.
  destruct (h !! l) as [[| | | | |ir| | |]|] eqn:Hl; try discriminate.
  res_inv H. inversion H; subst; clear H. exists ir. simpl. conjs.
  - split; [lia|exact Hl].
  - reflexivity.
  - now apply get_IdlType_cell.
  - now apply get_option_literal_at.
  - now apply parts_contents_at.
Qed.

Lemma members_ir_contents_at (h : heap) ls cs :
  res_mapM (member_ir_contents h) ls = Ret cs ->
  Forall2 (member_ir_at 0 h) ls cs.
Proof.
  revert cs. induction ls as [|l ls IH]; simpl; intros cs H.
  - inversion H. constructor.
  - res_inv H. inversion H; subst; clear H.
    constructor; [now apply member_ir_contents_at|now apply IH].
Qed.

Lemma builder_contents_at (h : heap) l c :
  builder_contents h l = Ret c -> builder_at 0 h l c.
Proof.
  unfold builder_contents. intros H.
  destruct (h !! l) as [[| | | | | |ir| |]|] eqn:Hl; try discriminate.
  apply res_bind_Ret in H. destruct H as (inh & Hinh & H).
  destruct (h !! ir_own_members ir) as [[| | | |elems| | | |]|] eqn:Hms;
    try discriminate.
  res_inv H. inversion H; subst; clear H. exists ir, elems. simpl. conjs;
    try reflexivity.
  - split; [lia|exact Hl].
  - now apply get_option_ref_at.
  - split; [lia|exact Hms].
  - now apply members_ir_contents_at.
  - now apply parts_contents_at.
Qed.

Lemma member_at_view lo (h : heap) l v :
  member_at lo h l v -> member_view h l = Ret v.
Proof.
  intros (m & [_ Hm] & Hid & Hown & Hty & Hdv & Hps & Hreq).
  unfold member_view, member_identifier, member_owner, member_idl_type,
    member_default_value, member_is_required, get_Member.
  rewrite Hm. cbn [res_bind].
  apply cell_zero, get_IdlType_cell in Hty. rewrite Hty. cbn [res_bind].
  rewrite (option_at_get_literal _ _ _ _ Hdv). cbn [res_bind].
  rewrite (parts_at_contents _ _ _ _ Hps). cbn [res_bind].
  destruct v as [[] ? ?]; simpl in *. now subst.
Qed.

Lemma members_at_view lo (h : heap) ls vs :
  Forall2 (member_at lo h) ls vs -> res_mapM (member_view h) ls = Ret vs.
Proof.
  induction 1 as [|l v ls vs Hl _ IH]; simpl; [reflexivity|].
  now rewrite (member_at_view _ _ _ _ Hl), IH.
Qed.

Lemma dictionary_at_view lo (h : heap) l v :
  dictionary_at lo h l v -> Dictionary_view h l = Ret v.
Proof.
  intros (d & [_ Hd] & Hid & Hinh & Hms & Hps).
  unfold Dictionary_view, Dictionary_own_members, get_Dictionary.
  rewrite Hd. cbn [res_bind].
  rewrite (option_at_get_ref _ _ _ _ Hinh). cbn [res_bind].
  rewrite (members_at_view _ _ _ _ Hms). cbn [res_bind].
  rewrite (parts_at_contents _ _ _ _ Hps). cbn [res_bind].
  destruct v; simpl in *. now subst.
Qed.

(** ** Running the monad *)

Lemma bind_run {A B} (c : M A) (k : A -> M B) (h h' : heap) a :
  c h = Ret (a, h') -> bind c k h = k a h'.
Proof. unfold bind. now intros ->. Qed.

Lemma agree_app_r lo (h h' t : heap) : agree lo h h' -> agree lo h (h' ++ t).
Proof. intros H. eapply agree_trans; [exact H|apply agree_app]. Qed.

Ltac agree_tac := first [apply agree_refl | apply agree_app_r; agree_tac].
Ltac prefix_tac :=
  first [apply (reflexivity (R := prefix)) | apply prefix_app_r; prefix_tac].
Ltac len_tac := rewrite ?length_app; simpl; lia.
Ltac lift H :=
  first [eapply cell_mono | eapply parts_at_mono | eapply option_at_mono
        | eapply member_ir_at_mono | eapply member_at_mono
        | eapply builder_at_mono];
  [exact H | len_tac | agree_tac].
Ltac step E := rewrite (bind_run _ _ _ _ _ E); cbv beta.

(** ** The copy *)

Lemma make_copy_value_spec lo (h0 h : heap) l o :
  cell lo h0 l o -> agree lo h0 h -> is_plain o = true ->
  make_copy_value l h = Ret (length h, h ++ [o]).
Proof.
  intros [Hl Hc] Hag Hplain. apply Hag in Hc; [|exact Hl].
  unfold make_copy_value, bind, read. rewrite Hc.
  now destruct o.
Qed.

(** Copy the value object described by [H], known in a heap that the
    current one agrees with by [Hag]. *)
Ltac copy_value H Hag :=
  match type of Hag with
  | agree ?lo ?h0 _ =>
      match goal with
      | |- bind (make_copy_value _) _ ?hc = _ =>
          let Ha := fresh "Ha" in
          assert (Ha : agree lo h0 hc)
            by (eapply agree_trans; [exact Hag|agree_tac]);
          rewrite (bind_run _ _ _ _ _
                     (make_copy_value_spec _ _ _ _ _ H Ha eq_refl));
          cbv beta; clear Ha
      end
  end.

Lemma make_copy_option_spec {X} (inj : X -> obj) lo (h0 h : heap) o x :
  option_at inj lo h0 o x -> agree lo h0 h ->
  (forall x, is_plain (inj x) = true) ->
  exists o' h', make_copy_option o h = Ret (o', h')
                /\ h `prefix_of` h'
                /\ option_at inj (length h) h' o' x.
Proof.
  intros Hat Hag Hplain. destruct o as [l|], x as [x|]; simpl in Hat;
    try contradiction.
  - exists (Some (length h)), (h ++ [inj x]). split.
    + unfold make_copy_option.
      now step (make_copy_value_spec _ _ _ _ _ Hat Hag (Hplain x)).
    + split; [prefix_tac|apply cell_alloc].
  - exists None, h. repeat split. reflexivity.
Qed.

Lemma make_copy_parts_spec lo (h0 h : heap) p c :
  parts_at lo h0 p c -> agree lo h0 h ->
  exists p' h', make_copy_parts p h = Ret (p', h')
                /\ h `prefix_of` h'
                /\ parts_at (length h) h' p' c.
Proof.
  intros (H1 & H2 & H3 & H4 & H5) Hag. eexists _, _. split; [|split].
  - unfold make_copy_parts.
    copy_value H1 Hag. copy_value H2 Hag. copy_value H3 Hag.
    copy_value H4 Hag. copy_value H5 Hag.
    reflexivity.
  - prefix_tac.
  - unfold parts_at; cbn [extended_attributes code_generator_info exposure
                            components debug_info].
    conjs; (eapply cell_mono; [apply cell_alloc|len_tac|agree_tac]).
Qed.

Ltac agree_from Hag := eapply agree_trans; [exact Hag|agree_tac].

Lemma make_copy_member_attrs_spec lo (h0 h : heap) ir ty dv ps :
  cell lo h0 (mir_idl_type ir) (OIdlType ty) ->
  option_at OLiteralConstant lo h0 (mir_default_value ir) dv ->
  parts_at lo h0 (mir_parts ir) ps ->
  agree lo h0 h ->
  exists l' h',
    make_copy_member_attrs ir h = Ret (l', h')
    /\ h `prefix_of` h'
    /\ member_ir_at (length h) h' l'
         {| c_member_identifier := mir_identifier ir; c_idl_type := ty;
            c_default_value := dv; c_member_parts := ps |}.
Proof.
  intros Hty Hdv Hps Hag. unfold make_copy_member_attrs.
  destruct (make_copy_option_spec OLiteralConstant lo h0 (h ++ [OIdlType ty])
              _ _ Hdv ltac:(agree_from Hag) ltac:(reflexivity))
    as (dv' & h1 & E1 & [t1 ->] & Hdv').
  destruct (make_copy_parts_spec lo h0 ((h ++ [OIdlType ty]) ++ t1)
              _ _ Hps ltac:(agree_from Hag))
    as (ps' & h2 & E2 & [t2 ->] & Hps').
  eexists _, _. split; [|split].
  - copy_value Hty Hag. step E1. step E2. reflexivity.
  - prefix_tac.
  - eexists. conjs.
    + eapply cell_mono; [apply cell_alloc|len_tac|agree_tac].
    + reflexivity.
    + eapply cell_mono; [apply cell_alloc|len_tac|agree_tac].
    + lift Hdv'.
    + lift Hps'.
Qed.

Lemma make_copy_element_spec lo (h0 h : heap) l c :
  member_ir_at lo h0 l c -> agree lo h0 h ->
  exists l' h',
    make_copy_element l h = Ret (l', h')
    /\ h `prefix_of` h'
    /\ member_ir_at (length h) h' l' c.
Proof.
  intros (ir & [Hl Hc] & Hid & Hty & Hdv & Hps) Hag.
  destruct (make_copy_member_attrs_spec lo h0 h ir _ _ _ Hty Hdv Hps Hag)
    as (l' & h' & E & Hpre & Hat).
  exists l', h'. split; [|split; [exact Hpre|]].
  - unfold make_copy_element, bind, read.
    rewrite (Hag _ _ Hl Hc). exact E.
  - destruct c; simpl in *. now subst.
Qed.

Lemma make_copy_elements_spec lo (h0 : heap) ls cs :
  Forall2 (member_ir_at lo h0) ls cs ->
  forall h : heap, agree lo h0 h ->
  exists ls' h',
    mapM make_copy_element ls h = Ret (ls', h')
    /\ h `prefix_of` h'
    /\ Forall2 (member_ir_at (length h) h') ls' cs.
Proof.
  induction 1 as [|l c ls cs Hl _ IH]; intros h Hag.
  - exists [], h. repeat split; [reflexivity|constructor].
  - destruct (make_copy_element_spec lo h0 h l c Hl Hag)
      as (l' & h1 & E1 & [t1 ->] & Hat1).
    destruct (IH (h ++ t1) ltac:(agree_from Hag))
      as (ls' & h2 & E2 & [t2 ->] & Hat2).
    exists (l' :: ls'), ((h ++ t1) ++ t2). split; [|split].
    + cbn [mapM]. step E1. step E2. reflexivity.
    + prefix_tac.
    + constructor; [lift Hat1|].
      eapply Forall2_impl; [exact Hat2|]. intros x y Hxy. lift Hxy.
Qed.

Lemma make_copy_list_spec lo (h0 h : heap) l elems cs :
  cell lo h0 l (OList elems) ->
  Forall2 (member_ir_at lo h0) elems cs ->
  agree lo h0 h ->
  exists l' h' elems',
    make_copy_list l h = Ret (l', h')
    /\ h `prefix_of` h'
    /\ cell (length h) h' l' (OList elems')
    /\ Forall2 (member_ir_at (length h) h') elems' cs.
Proof.
  intros [Hl Hc] Hms Hag.
  destruct (make_copy_elements_spec lo h0 _ _ Hms h Hag)
    as (elems' & h1 & E1 & [t1 ->] & Hms').
  eexists _, _, elems'. split; [|split; [|split]].
  - unfold make_copy_list, bind at 1, read.
    rewrite (Hag _ _ Hl Hc). step E1. reflexivity.
  - prefix_tac.
  - eapply cell_mono; [apply cell_alloc|len_tac|agree_tac].
  - eapply Forall2_impl; [exact Hms'|]. intros x y Hxy. lift Hxy.
Qed.

Lemma make_copy_dictionary_ir_spec lo (h0 h : heap) l c :
  builder_at lo h0 l c -> agree lo h0 h ->
  exists l' h',
    make_copy_dictionary_ir l h = Ret (l', h')
    /\ h `prefix_of` h'
    /\ builder_at (length h) h' l' c.
Proof.
  intros (ir & elems & [Hl Hc] & Hid & Hpartial & Hinh & Hlist & Hms
          & Hps) Hag.
  destruct (make_copy_option_spec ORefById lo h0 h _ _ Hinh Hag
              ltac:(reflexivity))
    as (inh' & h1 & E1 & [t1 ->] & Hinh').
  destruct (make_copy_list_spec lo h0 (h ++ t1) _ _ _ Hlist Hms
              ltac:(agree_from Hag))
    as (ms' & h2 & elems' & E2 & [t2 ->] & Hlist' & Hms').
  destruct (make_copy_parts_spec lo h0 ((h ++ t1) ++ t2)
              _ _ Hps ltac:(agree_from Hag))
    as (ps' & h3 & E3 & [t3 ->] & Hps').
  eexists _, _. split; [|split].
  - unfold make_copy_dictionary_ir, bind at 1, read.
    rewrite (Hag _ _ Hl Hc). step E1. step E2. step E3. reflexivity.
  - prefix_tac.
  - eexists _, elems'. conjs.
    + eapply cell_mono; [apply cell_alloc|len_tac|agree_tac].
    + exact Hid.
    + exact Hpartial.
    + lift Hinh'.
    + lift Hlist'.
    + eapply Forall2_impl; [exact Hms'|]. intros x y Hxy. lift Hxy.
    + lift Hps'.
Qed.

(** ** The freeze *)

Lemma assert_on_run (p : heap -> bool) (h : heap) :
  p h = true -> assert_on p h = Ret (tt, h).
Proof. unfold assert_on. now intros ->. Qed.

Lemma read_run (h : heap) l o : h !! l = Some o -> read l h = Ret (o, h).
Proof. unfold read. now intros ->. Qed.

Lemma with_value_ref_spec lo (h0 h : heap) l s :
  cell lo h0 l (OValue s) -> agree lo h0 h ->
  with_value (VRef l) h = Ret (l, h).
Proof. intros [Hl Hc] Hag. simpl. now rewrite (Hag _ _ Hl Hc). Qed.

Lemma freeze_value_spec lo (h0 h : heap) l s :
  cell lo h0 l (OValue s) -> agree lo h0 h ->
  freeze_value l h = Ret (length h, h ++ [OValue s]).
Proof.
  intros [Hl Hc] Hag. unfold freeze_value.
  now step (read_run _ _ _ (Hag _ _ Hl Hc)).
Qed.

Ltac pass_assert tac :=
  match goal with
  | |- bind (assert_on ?p) _ ?hc = _ =>
      let Hp := fresh "Hp" in
      assert (Hp : p hc = true) by (cbv beta; tac);
      rewrite (bind_run _ _ _ _ _ (assert_on_run p hc Hp));
      cbv beta; clear Hp
  end.

Lemma read_cell lo (h0 h : heap) l o :
  cell lo h0 l o -> agree lo h0 h -> read l h = Ret (o, h).
Proof. intros [Hl Hc] Hag. apply read_run. now apply Hag. Qed.

Ltac read_at H :=
  match goal with
  | |- bind (read _) _ ?hc = _ =>
      rewrite (bind_run _ _ _ _ _ (read_cell _ _ hc _ _ H ltac:(agree_tac)));
      cbv beta
  end.

Ltac with_value_ref H :=
  match goal with
  | |- bind (with_value (VRef _)) _ ?hc = _ =>
      rewrite (bind_run _ _ _ _ _
                 (with_value_ref_spec _ _ hc _ _ H ltac:(agree_tac)));
      cbv beta
  end.

Ltac freeze_value_of H :=
  match goal with
  | |- bind (freeze_value _) _ ?hc = _ =>
      rewrite (bind_run _ _ _ _ _
                 (freeze_value_spec _ _ hc _ _ H ltac:(agree_tac)));
      cbv beta
  end.

Lemma DictionaryMember_init_spec lo (h0 h : heap) ir owner D c :
  member_ir_at lo h0 ir c -> agree lo h0 h ->
  h !! owner = Some (ODictionary D) ->
  exists m h',
    DictionaryMember_init ir owner h = Ret (m, h')
    /\ h `prefix_of` h'
    /\ member_at (length h) h' m (frozen_member owner c).
Proof.
  intros Hir Hag Hown.
  destruct (make_copy_element_spec lo h0 h ir c Hir Hag)
    as (ir' & h1 & E1 & [t1 ->] & Hir').
  destruct Hir as (mir & [Hl Hc] & _).
  destruct Hir' as (mir' & Hcell & Hid & Hty & Hdv & Hps).
  destruct Hps as (P1 & P2 & P3 & P4 & P5).
  eexists _, _. split; [|split].
  - unfold DictionaryMember_init.
    pass_assert ltac:(now rewrite (Hag _ _ Hl Hc)).
    pass_assert ltac:(now rewrite Hown).
    step E1. step (read_run _ _ _ (proj2 Hcell)). cbv iota.
    with_value_ref P1. freeze_value_of P2. freeze_value_of P3.
    with_value_ref P5. reflexivity.
  - prefix_tac.
  - eexists.
    split; [eapply cell_mono; [apply cell_alloc|len_tac|agree_tac]|].
    unfold parts_at. cbn. conjs;
      try reflexivity;
      try (eapply cell_mono; [apply cell_alloc|len_tac|agree_tac]).
    + exact Hid.
    + lift Hty.
    + lift Hdv.
    + lift P1.
    + lift P4.
    + lift P5.
Qed.

Lemma DictionaryMember_inits_spec lo (h0 : heap) owner D ls cs :
  Forall2 (member_ir_at lo h0) ls cs ->
  forall h : heap, agree lo h0 h ->
  h !! owner = Some (ODictionary D) ->
  exists ms h',
    mapM (fun member_ir => DictionaryMember_init member_ir owner) ls h
      = Ret (ms, h')
    /\ h `prefix_of` h'
    /\ Forall2 (member_at (length h) h') ms (map (frozen_member owner) cs).
Proof.
  induction 1 as [|l c ls cs Hl _ IH]; intros h Hag Hown.
  - exists [], h. repeat split; [reflexivity|constructor].
  - destruct (DictionaryMember_init_spec lo h0 h l owner D c Hl Hag Hown)
      as (m & h1 & E1 & [t1 ->] & Hat1).
    destruct (IH (h ++ t1) ltac:(agree_from Hag)
                ltac:(now apply lookup_app_l_Some))
      as (ms & h2 & E2 & [t2 ->] & Hat2).
    exists (m :: ms), ((h ++ t1) ++ t2). split; [|split].
    + cbn [mapM]. step E1. step E2. reflexivity.
    + prefix_tac.
    + cbn [map]. constructor; [lift Hat1|].
      eapply Forall2_impl; [exact Hat2|]. intros x y Hxy. lift Hxy.
Qed.

Lemma insert_self (h t : heap) o o' :
  <[length h := o']> ((h ++ [o]) ++ t) = (h ++ [o']) ++ t.
Proof.
  rewrite <- !app_assoc. rewrite insert_app_r_alt by lia.
  now rewrite Nat.sub_diag.
Qed.

(** Freezing a builder that is not partial succeeds; the new dictionary
    and all it refers to are new objects, holding what the builder held;
    the objects that existed are as they were. *)
Lemma Dictionary_init_spec (h : heap) ir c :
  builder_at 0 h ir c -> c_is_partial c = false ->
  exists h',
    Dictionary_init ir h = Ret (length h, h')
    /\ h `prefix_of` h'
    /\ dictionary_at (length h) h' (length h)
         (frozen_dictionary (length h) c).
Proof.
  intros Hir Hpartial.
  pose proof (agree_app 0 h [ODictionary blank_Dictionary]) as Hag.
  destruct (make_copy_dictionary_ir_spec 0 h _ ir c Hir Hag)
    as (ir' & h1 & E1 & [t1 ->] & Hir').
  destruct Hir as (b & elems & [Hl Hc] & _ & Hp & _).
  destruct Hir' as (b' & elems' & Hcell & Hid & _ & Hinh & Hlist & Hms & Hps).
  destruct Hps as (P1 & P2 & P3 & P4 & P5).
  assert (Hlo : length (h ++ [ODictionary blank_Dictionary]) = S (length h))
    by len_tac.
  rewrite Hlo in *. clear Hlo.
  set (self := length h) in *.
  set (h1 := (h ++ [ODictionary blank_Dictionary]) ++ t1) in *.
  set (h2 := (h1 ++ [OValue (c_code_generator_info (c_parts c))])
               ++ [OValue (c_exposure (c_parts c))]).
  assert (Hself : h2 !! self = Some (ODictionary blank_Dictionary)).
  { unfold h2, h1. do 3 apply lookup_app_l_Some. apply cell_alloc. }
  destruct (DictionaryMember_inits_spec _ h1 self _ _ _ Hms h2
              ltac:(unfold h2; agree_tac) Hself)
    as (ms & h3 & E3 & [t3 ->] & Hat3).
  eexists. split; [|split].
  - unfold Dictionary_init. unfold alloc at 1. unfold bind at 1.
    pass_assert ltac:(now rewrite (Hag _ _ Hl Hc)).
    step (read_run _ _ _ (Hag _ _ Hl Hc)). rewrite Hp, Hpartial.
    unfold py_assert at 1, negb, bind at 1, ret at 1.
    step E1. step (read_run _ _ _ (proj2 Hcell)). cbv iota.
    with_value_ref P1. freeze_value_of P2. freeze_value_of P3.
    with_value_ref P5.
    read_at Hlist.
    cbv iota. fold self. fold h1. fold h2. step E3.
    unfold store, bind, ret. reflexivity.
  - unfold h2, h1. rewrite <- !app_assoc.
    rewrite insert_app_r_alt by (fold self; lia).
    fold self. rewrite Nat.sub_diag. simpl. prefix_tac.
  - assert (Hfinal : forall o, agree (S self) (h2 ++ t3)
                                 (<[self := o]> (h2 ++ t3))).
    { intros o. apply agree_insert_below. lia. }
    assert (Hlen : length h1 = S self + length t1)
      by (unfold h1, self; rewrite !length_app; simpl; lia).
    eexists. split.
    { split; [lia|]. apply list_lookup_insert_eq.
      apply lookup_lt_Some in Hself. rewrite length_app. lia. }
    unfold parts_at. cbn. conjs.
    + exact Hid.
    + eapply option_at_mono; [exact Hinh|len_tac|].
      eapply agree_trans; [|apply Hfinal]. unfold h2. agree_tac.
    + eapply Forall2_impl; [exact Hat3|]. intros x y Hxy.
      eapply member_at_mono; [exact Hxy| |].
      * unfold h2. rewrite !length_app, Hlen. lia.
      * eapply agree_weaken; [|apply Hfinal].
        unfold h2. rewrite !length_app, Hlen. lia.
    + eapply cell_mono; [exact P1|len_tac|].
      eapply agree_trans; [|apply Hfinal]. unfold h2. agree_tac.
    + eapply cell_mono; [apply cell_alloc|rewrite Hlen; lia|].
      eapply agree_trans; [|eapply agree_weaken; [|apply Hfinal]];
        [unfold h2; agree_tac|rewrite Hlen; lia].
    + eapply cell_mono; [apply cell_alloc|len_tac|].
      eapply agree_trans; [|eapply agree_weaken; [|apply Hfinal]];
        [unfold h2; agree_tac|len_tac].
    + eapply cell_mono; [exact P4|len_tac|].
      eapply agree_trans; [|apply Hfinal]. unfold h2. agree_tac.
    + eapply cell_mono; [exact P5|len_tac|].
      eapply agree_trans; [|apply Hfinal]. unfold h2. agree_tac.
Qed.

(** ** Mutation *)

Lemma mutate1_agree lo (h cur : heap) cells m :
  Forall (fun l => l < lo) cells ->
  mutates_builder cells (length h) m = true ->
  agree lo h cur -> agree lo h (mutate1 cur m).
Proof.
  intros Hcells Hm Hag. destruct m as [l o|o]; simpl in *.
  - intros x ox Hx Hh. rewrite list_lookup_insert_ne; [now apply Hag|].
    apply orb_true_iff in Hm. destruct Hm as [Hm|Hm].
    + apply existsb_exists in Hm. destruct Hm as (l' & Hin & Heq).
      apply Nat.eqb_eq in Heq. subst l'.
      rewrite Forall_forall in Hcells. apply list_elem_of_In in Hin.
      specialize (Hcells _ Hin). lia.
    + apply Nat.leb_le in Hm. apply lookup_lt_Some in Hh. lia.
  - now apply agree_app_r.
Qed.

Lemma mutate_agree lo (h : heap) cells ms :
  Forall (fun l => l < lo) cells ->
  forallb (mutates_builder cells (length h)) ms = true ->
  forall cur, agree lo h cur -> agree lo h (mutate ms cur).
Proof.
  intros Hcells. induction ms as [|m ms IH]; simpl; intros Hms cur Hag;
    [exact Hag|].
  apply andb_true_iff in Hms. destruct Hms as [Hm Hms].
  apply IH; [exact Hms|]. eapply mutate1_agree; eauto.
Qed.

Lemma parts_cells_allocated lo (h : heap) p c :
  parts_at lo h p c -> Forall (fun l => l < length h) (parts_cells p).
Proof.
  intros (H1 & H2 & H3 & H4 & H5). unfold parts_cells.
  repeat constructor; eapply cell_allocated; eauto.
Qed.

Lemma option_cells_allocated {X} (inj : X -> obj) lo (h : heap) o x :
  option_at inj lo h o x -> Forall (fun l => l < length h) (option_cells o).
Proof.
  destruct o, x; simpl; try easy; intros H.
  repeat constructor. eapply cell_allocated; eauto.
Qed.

Lemma member_ir_cells_allocated lo (h : heap) l c :
  member_ir_at lo h l c ->
  Forall (fun l => l < length h) (member_ir_cells h l).
Proof.
  intros (ir & Hc & _ & Hty & Hdv & Hps). unfold member_ir_cells.
  rewrite (proj2 Hc). constructor; [eapply cell_allocated; eauto|].
  constructor; [eapply cell_allocated; eauto|].
  apply Forall_app. split;
    eauto using option_cells_allocated, parts_cells_allocated.
Qed.

Lemma builder_cells_allocated lo (h : heap) l c :
  builder_at lo h l c -> Forall (fun l => l < length h) (builder_cells h l).
Proof.
  intros (ir & elems & Hc & _ & _ & Hinh & Hlist & Hms & Hps).
  unfold builder_cells. rewrite (proj2 Hc), (proj2 Hlist).
  constructor; [eapply cell_allocated; eauto|].
  apply Forall_app. split; [eauto using option_cells_allocated|].
  apply Forall_app. split; [eauto using parts_cells_allocated|].
  constructor; [eapply cell_allocated; eauto|].
  clear -Hms. induction Hms as [|x y xs ys Hxy _ IH]; cbn [map concat];
    [constructor|].
  apply Forall_app. split; [eauto using member_ir_cells_allocated|exact IH].
Qed.

(** ** Consequences of the freeze *)

Lemma Dictionary_init_partial (h : heap) ir b :
  h !! ir = Some (ODictionaryIR b) -> ir_is_partial b = true ->
  Dictionary_init ir h = Raise AssertionError.
Proof.
  intros Hir Hp. unfold Dictionary_init. unfold alloc at 1, bind at 1.
  assert (Hir' : (h ++ [ODictionary blank_Dictionary]) !! ir
                 = Some (ODictionaryIR b)) by now apply lookup_app_l_Some.
  unfold bind at 1, assert_on. rewrite Hir'. cbn [is_DictionaryIR].
  step (read_run _ _ _ Hir'). now rewrite Hp.
Qed.

Lemma Dictionary_init_frozen (h : heap) ir c d h' :
  builder_contents h ir = Ret c ->
  Dictionary_init ir h = Ret (d, h') ->
  c_is_partial c = false
  /\ d = length h
  /\ h `prefix_of` h'
  /\ dictionary_at (length h) h' d (frozen_dictionary d c).
Proof.
  intros Hc Hinit. apply builder_contents_at in Hc.
  destruct (c_is_partial c) eqn:Hp.
  - destruct Hc as (b & elems & [_ Hb] & _ & Hpb & _).
    rewrite (Dictionary_init_partial h ir b Hb) in Hinit by congruence.
    discriminate.
  - destruct (Dictionary_init_spec h ir c Hc Hp) as (h2 & E & Hpre & Hat).
    rewrite E in Hinit. inversion Hinit; subst. auto.
Qed.

Lemma frozen_after_mutation (h : heap) ir c d h' ms :
  builder_contents h ir = Ret c ->
  Dictionary_init ir h = Ret (d, h') ->
  forallb (mutates_builder (builder_cells h ir) (length h')) ms = true ->
  d = length h
  /\ dictionary_at (length h) (mutate ms h') d (frozen_dictionary d c).
Proof.
  intros Hc Hinit Hms.
  destruct (Dictionary_init_frozen _ _ _ _ _ Hc Hinit)
    as (_ & Hd & _ & Hat).
  split; [exact Hd|].
  eapply dictionary_at_mono; [exact Hat|lia|].
  eapply mutate_agree; [|exact Hms|apply agree_refl].
  eapply builder_cells_allocated. apply builder_contents_at. exact Hc.
Qed.

Lemma members_at_owner lo (h : heap) owner ls cs :
  Forall2 (member_at lo h) ls (map (frozen_member owner) cs) ->
  Forall (fun m => member_owner h m = Ret owner) ls.
Proof.
  revert ls. induction cs as [|c cs IH]; simpl; intros ls H;
    inversion H as [|l v ls' vs Hl Hrest]; subst; constructor.
  - destruct Hl as (m & [_ Hm] & _ & Hown & _).
    unfold member_owner, get_Member. rewrite Hm. simpl. now rewrite Hown.
  - now apply IH.
Qed.

Lemma members_at_identifier lo (h : heap) ls vs :
  Forall2 (member_at lo h) ls vs ->
  res_mapM (member_identifier h) ls
    = Ret (map (fun v => c_member_identifier (v_member v)) vs).
Proof.
  induction 1 as [|l v ls vs Hl _ IH]; simpl; [reflexivity|].
  destruct Hl as (m & [_ Hm] & Hid & _).
  unfold member_identifier at 1, get_Member. rewrite Hm. cbn [res_bind].
  now rewrite IH, Hid.
Qed.

(** C1: at any recursion depth beyond the length of the lineage, the
    members query returns members(parent) followed by the own members
    sorted by identifier, and nothing for an absent dictionary; each level
    is a rearrangement of the own members in ascending identifier order;
    Derived over Base gives a, z, b, m. *)
Theorem members_flattened resolver (h : heap) d ds :
  lineage resolver h (Some d) ds ->
  (forall fuel, length ds < fuel ->
     Dictionary_members resolver fuel h d = Some (members_spec h ds))
  /\ members_spec h [] = Ret []
  /\ (forall d' ancestors inherited_members own own_sorted,
        members_spec h ancestors = Ret inherited_members ->
        Dictionary_own_members h d' = Ret own ->
        sorted_by_identifier h own = Ret own_sorted ->
        members_spec h (d' :: ancestors)
          = Ret (inherited_members ++ own_sorted)
        /\ Permutation own own_sorted
        /\ exists ks, res_mapM (member_identifier h) own_sorted = Ret ks
                      /\ StronglySorted id_le ks)
  /\ match Dictionary_members example_resolver 3 example_heap Derived with
     | Some (Ret ms) =>
         res_mapM (member_identifier example_heap) ms
           = Ret ["a"; "z"; "b"; "m"]%string
     | _ => False
     end.
Proof.
  intros Hlin. split; [|split; [|split]].
  - intros fuel Hfuel. now apply collect_lineage.
  - reflexivity.
  - intros d' ancestors inh own own_sorted Hinh Hown Hsorted. split.
    + cbn [members_spec]. rewrite Hinh. cbn [res_bind].
      rewrite Hown. cbn [res_bind]. now rewrite Hsorted.
    + now apply sorted_by_identifier_spec.
  - vm_compute. reflexivity.
Qed.

Lemma example_lineage :
  lineage example_resolver example_heap (Some Derived) [Derived; Base].
Proof.
  apply lineage_step with (parent := Some Base); [vm_compute; reflexivity|].
  apply lineage_step with (parent := None); [vm_compute; reflexivity|].
  constructor.
Qed.

Lemma members_flattened_witness :
  lineage example_resolver example_heap (Some Derived) [Derived; Base]
  /\ Dictionary_members example_resolver 3 example_heap Derived
     = Some (members_spec example_heap [Derived; Base]).
Proof.
  split; [exact example_lineage|].
  apply (proj1 (members_flattened example_resolver example_heap Derived
                  [Derived; Base] example_lineage)).
  simpl. lia.
Defined.

(** C10: when the chain of parents is finite the members query returns
    (a list or an exception) once the depth allowed exceeds the length of
    the chain; nothing guards against a cycle, and on a dictionary that
    is its own parent no depth suffices. *)
Theorem members_terminates resolver (h : heap) d n :
  finite_chain resolver h (Some d) n ->
  (forall fuel, n < fuel ->
     exists r, Dictionary_members resolver fuel h d = Some r)
  /\ (forall d', Dictionary_inherited resolver h d' = Ret (Some d') ->
        forall fuel, Dictionary_members resolver fuel h d' = None).
Proof.
  intros Hch. split.
  - intros fuel Hfuel. unfold Dictionary_members.
    pose proof (collect_finite_chain resolver h _ _ Hch fuel Hfuel) as Hne.
    destruct (collect_inherited_members resolver fuel h (Some d)) as [r|];
      [now exists r|contradiction].
  - intros d' Hself fuel. now apply collect_self_cycle.
Qed.

Lemma members_terminates_witness :
  finite_chain example_resolver example_heap (Some Derived) 2
  /\ exists r, Dictionary_members example_resolver 3 example_heap Derived
               = Some r.
Proof.
  assert (Hch : finite_chain example_resolver example_heap (Some Derived) 2).
  { apply chain_step with (parent := Some Base); [vm_compute; reflexivity|].
    apply chain_step with (parent := None); [vm_compute; reflexivity|].
    constructor. }
  split; [exact Hch|].
  apply (proj1 (members_terminates example_resolver example_heap Derived 2
                  Hch)). lia.
Defined.

(** ** The builders' assertions *)

Lemma with_value_total (h0 h : heap) v :
  part_arg_ok h0 v = true -> agree 0 h0 h ->
  exists l t, with_value v h = Ret (l, h ++ t).
Proof.
  intros Hok Hag. destruct v as [| | |l]; simpl in *; try discriminate.
  - now exists (length h), [OValue EmptyString].
  - destruct (h0 !! l) as [[]|] eqn:E; try discriminate.
    rewrite (Hag _ _ (Nat.le_0_l _) E). exists l, []. now rewrite app_nil_r.
Qed.

Lemma with_component_total (h : heap) v :
  component_arg_ok v = true ->
  exists l t, with_component v h = Ret (l, h ++ t).
Proof.
  destruct v as [| |s|]; simpl; try discriminate; intros _.
  - now exists (length h), [OValue EmptyString].
  - now exists (length h), [OValue s].
Qed.

Lemma attr_is_optional_run (h : heap) ty t :
  h !! ty = Some (OIdlType t) ->
  attr_is_optional (VRef ty) h = Ret (is_optional t, h).
Proof.
  intros Hty. unfold attr_is_optional, deref.
  now step (read_run _ _ _ Hty).
Qed.

(** C2: a member builder cannot be made without a declared type, nor
    with a default value and a type that is not optional; with an
    optional type and a default value it is made. *)
Theorem member_builder_contract (h : heap) identifier ty t dv lit
    default_value ea co di :
  h !! ty = Some (OIdlType t) ->
  h !! dv = Some (OLiteralConstant lit) ->
  part_arg_ok h ea = true ->
  component_arg_ok co = true ->
  part_arg_ok h di = true ->
  DictionaryMember_IR_init identifier VNone default_value ea co di h
    = Raise AssertionError
  /\ if is_optional t
     then exists l h' ir,
            DictionaryMember_IR_init identifier (VRef ty) (VRef dv) ea co di h
              = Ret (l, h')
            /\ h' !! l = Some (OMemberIR ir)
            /\ mir_identifier ir = identifier
            /\ mir_idl_type ir = ty
            /\ mir_default_value ir = Some dv
     else DictionaryMember_IR_init identifier (VRef ty) (VRef dv) ea co di h
            = Raise AssertionError.
Proof.
  intros Hty Hdv Hea Hco Hdi. split; [reflexivity|].
  destruct (is_optional t) eqn:Hopt.
  - destruct (with_value_total h h ea Hea (agree_refl _ _))
      as (l1 & t1 & E1).
    destruct (with_component_total
                (((h ++ t1) ++ [OValue ""]) ++ [OValue ""]) co Hco)
      as (l2 & t2 & E2).
    destruct (with_value_total h
                ((((h ++ t1) ++ [OValue ""]) ++ [OValue ""]) ++ t2) di Hdi
                ltac:(agree_tac))
      as (l3 & t3 & E3).
    eexists _, _, _. split.
    { unfold DictionaryMember_IR_init.
      pass_assert ltac:(simpl; now rewrite Hty).
      pass_assert ltac:(simpl; now rewrite Hdv).
      cbn [truthy negb]. step (attr_is_optional_run _ _ _ Hty). rewrite Hopt.
      unfold py_assert, ret at 1, bind at 1.
      step E1. unfold with_value at 1 2, alloc at 1 2. unfold bind at 1 2.
      step E2. step E3. reflexivity. }
    split; [apply cell_alloc|repeat split].
  - unfold DictionaryMember_IR_init.
    pass_assert ltac:(simpl; now rewrite Hty).
    pass_assert ltac:(simpl; now rewrite Hdv).
    cbn [truthy negb]. step (attr_is_optional_run _ _ _ Hty).
    now rewrite Hopt.
Qed.

Lemma member_builder_contract_witness :
  (member_args_heap !! 0
     = Some (OIdlType {| type_name := "long"; is_optional := true |})
   /\ member_args_heap !! 1 = Some (OLiteralConstant {| literal := "0" |})
   /\ exists l h' ir,
        DictionaryMember_IR_init "x" (VRef 0) (VRef 1) VNone VNone VNone
          member_args_heap = Ret (l, h')
        /\ h' !! l = Some (OMemberIR ir)
        /\ mir_identifier ir = "x"%string
        /\ mir_idl_type ir = 0
        /\ mir_default_value ir = Some 1)
  /\ (member_args_heap !! 2
        = Some (OIdlType {| type_name := "long"; is_optional := false |})
      /\ DictionaryMember_IR_init "x" (VRef 2) (VRef 1) VNone VNone VNone
           member_args_heap = Raise AssertionError).
Proof.
  split.
  - split; [reflexivity|]. split; [reflexivity|].
    exact (proj2 (member_builder_contract member_args_heap "x" 0 _ 1 _
                    VNone VNone VNone VNone
                    eq_refl eq_refl eq_refl eq_refl eq_refl)).
  - split; [reflexivity|].
    exact (proj2 (member_builder_contract member_args_heap "x" 2 _ 1 _
                    VNone VNone VNone VNone
                    eq_refl eq_refl eq_refl eq_refl eq_refl)).
Defined.

(** C3: freezing a builder whose is_partial flag is set fails with an
    assertion error, whatever else the builder and the heap hold; no
    dictionary is returned. *)
Theorem partial_freeze_rejected (h : heap) ir b :
  h !! ir = Some (ODictionaryIR b) ->
  ir_is_partial b = true ->
  Dictionary_init ir h = Raise AssertionError.
Proof. apply Dictionary_init_partial. Qed.

Lemma partial_freeze_rejected_witness :
  (exists b, snd partial_example !! fst partial_example
               = Some (ODictionaryIR b)
             /\ ir_is_partial b = true)
  /\ Dictionary_init (fst partial_example) (snd partial_example)
     = Raise AssertionError.
Proof.
  assert (H : exists b, snd partial_example !! fst partial_example
                          = Some (ODictionaryIR b)
                        /\ ir_is_partial b = true).
  { eexists. split; vm_compute; reflexivity. }
  split; [exact H|]. destruct H as (b & Hb & Hp).
  exact (partial_freeze_rejected _ _ b Hb Hp).
Defined.

(** C5: a frozen member is required exactly when its declared type is not
    optional; nothing else of the member enters. *)
Theorem is_required_iff_not_optional (h : heap) m ty t :
  member_idl_type h m = Ret ty ->
  get_IdlType h ty = Ret t ->
  member_is_required h m = Ret (negb (is_optional t)).
Proof.
  unfold member_idl_type, member_is_required. intros Hm Ht.
  destruct (get_Member h m) as [mem|e]; simpl in *; [|discriminate].
  inversion Hm; subst. now rewrite Ht.
Qed.

Lemma is_required_iff_not_optional_witness :
  (member_idl_type (snd optional_example) optional_member
     = Ret optional_member_type
   /\ get_IdlType (snd optional_example) optional_member_type
      = Ret {| type_name := "long"; is_optional := true |})
  /\ member_is_required (snd optional_example) optional_member = Ret false.
Proof.
  split; [split; vm_compute; reflexivity|].
  apply (is_required_iff_not_optional (snd optional_example) optional_member
           optional_member_type
           {| type_name := "long"; is_optional := true |});
    vm_compute; reflexivity.
Defined.

Lemma builder_example_contents :
  builder_contents (snd builder_example) (fst builder_example)
    = Ret Derived_contents.
Proof. vm_compute. reflexivity. Qed.

Lemma frozen_example_eq :
  Dictionary_init (fst builder_example) (snd builder_example)
    = Ret (fst frozen_example, snd frozen_example).
Proof. vm_compute. reflexivity. Qed.

(** C4: once a builder has been frozen, assigning to the builder, to its
    member list, to its member builders or to any object they hold, and
    creating objects, leaves what the accessors of the dictionary and of
    its members return as it was: the fields of the builder at the time of
    the freeze. *)
Theorem frozen_unchanged_by_builder_mutation (h : heap) ir c d h' ms :
  builder_contents h ir = Ret c ->
  Dictionary_init ir h = Ret (d, h') ->
  forallb (mutates_builder (builder_cells h ir) (length h')) ms = true ->
  Dictionary_view (mutate ms h') d = Dictionary_view h' d
  /\ Dictionary_view h' d = Ret (frozen_dictionary d c).
Proof.
  intros Hc Hinit Hms.
  destruct (frozen_after_mutation h ir c d h' ms Hc Hinit Hms) as [_ Hat].
  destruct (frozen_after_mutation h ir c d h' [] Hc Hinit eq_refl)
    as [_ Hat0].
  apply dictionary_at_view in Hat, Hat0. simpl in Hat0.
  split; congruence.
Qed.

Lemma frozen_unchanged_by_builder_mutation_witness :
  (builder_contents (snd builder_example) (fst builder_example)
     = Ret Derived_contents
   /\ Dictionary_init (fst builder_example) (snd builder_example)
      = Ret (fst frozen_example, snd frozen_example)
   /\ forallb (mutates_builder
                 (builder_cells (snd builder_example) (fst builder_example))
                 (length (snd frozen_example))) example_mutations = true)
  /\ Dictionary_view (mutate example_mutations (snd frozen_example))
       (fst frozen_example)
     = Dictionary_view (snd frozen_example) (fst frozen_example).
Proof.
  assert (Hms : forallb (mutates_builder
                   (builder_cells (snd builder_example) (fst builder_example))
                   (length (snd frozen_example))) example_mutations = true)
    by (vm_compute; reflexivity).
  split; [split; [exact builder_example_contents|
                  split; [exact frozen_example_eq|exact Hms]]|].
  exact (proj1 (frozen_unchanged_by_builder_mutation _ _ _ _ _ _
                  builder_example_contents frozen_example_eq Hms)).
Defined.

(** C6: the own members of a frozen dictionary are the frozen members of
    the builder, one for one in the builder's order; Derived, built with
    m then b, reports m then b. *)
Theorem own_members_in_declaration_order (h : heap) ir c :
  builder_contents h ir = Ret c ->
  c_is_partial c = false ->
  (exists d h' own,
     Dictionary_init ir h = Ret (d, h')
     /\ Dictionary_own_members h' d = Ret own
     /\ res_mapM (member_view h') own
        = Ret (map (frozen_member d) (c_own_members c))
     /\ res_mapM (member_identifier h') own
        = Ret (map c_member_identifier (c_own_members c)))
  /\ (let? own := Dictionary_own_members example_heap Derived in
      res_mapM (member_identifier example_heap) own)
     = Ret ["m"; "b"]%string.
Proof.
  intros Hc Hp. split; [|vm_compute; reflexivity].
  destruct (Dictionary_init_spec h ir c (builder_contents_at _ _ _ Hc) Hp)
    as (h' & E & _ & D & [_ HD] & _ & _ & Hms & _).
  exists (length h), h', (d_own_members D). split; [exact E|].
  split; [unfold Dictionary_own_members, get_Dictionary; now rewrite HD|].
  split; [exact (members_at_view _ _ _ _ Hms)|].
  rewrite (members_at_identifier _ _ _ _ Hms). simpl.
  now rewrite map_map.
Qed.

Lemma own_members_in_declaration_order_witness :
  (builder_contents (snd builder_example) (fst builder_example)
     = Ret Derived_contents
   /\ c_is_partial Derived_contents = false)
  /\ exists d h' own,
       Dictionary_init (fst builder_example) (snd builder_example)
         = Ret (d, h')
       /\ Dictionary_own_members h' d = Ret own
       /\ res_mapM (member_view h') own
          = Ret (map (frozen_member d) (c_own_members Derived_contents))
       /\ res_mapM (member_identifier h') own
          = Ret (map c_member_identifier (c_own_members Derived_contents)).
Proof.
  split; [split; [exact builder_example_contents|reflexivity]|].
  exact (proj1 (own_members_in_declaration_order _ _ _
                  builder_example_contents eq_refl)).
Defined.

(** C7, as the code has it: the freeze keeps the reference of the
    builder as a reference; the inherited query resolves it when asked
    and returns the dictionary the resolver finds, fails as the resolver
    fails, and returns None when the builder had no reference. *)
Theorem inherited_resolved_on_query
    (resolver : Identifier -> option loc) (h : heap) ir c :
  builder_contents h ir = Ret c ->
  c_is_partial c = false ->
  exists d h',
    Dictionary_init ir h = Ret (d, h')
    /\ Dictionary_inherited resolver h' d
       = match c_inherited c with
         | Some r => let? parent := target_object resolver r in
                     Ret (Some parent)
         | None => Ret None
         end.
Proof.
  intros Hc Hp.
  destruct (Dictionary_init_spec h ir c (builder_contents_at _ _ _ Hc) Hp)
    as (h' & E & _ & D & [_ HD] & _ & Hinh & _).
  exists (length h), h'. split; [exact E|].
  unfold Dictionary_inherited, get_Dictionary. rewrite HD. cbn [res_bind].
  simpl in Hinh. destruct (d_inherited D) as [l|], (c_inherited c) as [r|];
    simpl in Hinh; try contradiction; [|reflexivity].
  unfold get_RefById. now rewrite (proj2 Hinh).
Qed.

Lemma inherited_resolved_on_query_witness :
  (builder_contents (snd builder_example) (fst builder_example)
     = Ret Derived_contents
   /\ c_is_partial Derived_contents = false)
  /\ exists d h',
       Dictionary_init (fst builder_example) (snd builder_example)
         = Ret (d, h')
       /\ Dictionary_inherited example_resolver h' d
          = match c_inherited Derived_contents with
            | Some r => let? parent := target_object example_resolver r in
                        Ret (Some parent)
            | None => Ret None
            end.
Proof.
  split; [split; [exact builder_example_contents|reflexivity]|].
  exact (inherited_resolved_on_query example_resolver _ _ _
           builder_example_contents eq_refl).
Defined.

(** C7, as stated, fails: the builder of Derived is frozen although
    nothing can be resolved, and the freeze has not resolved anything. *)
Lemma freeze_does_not_resolve : ~ freeze_resolves_inherited.
Proof.
  intros H.
  destruct (H (fun _ => None) (snd builder_example) (fst builder_example)
              Derived_contents {| ref_identifier := "Base" |}
              (fst frozen_example) (snd frozen_example)
              builder_example_contents eq_refl frozen_example_eq)
    as [parent Hparent].
  discriminate Hparent.
Qed.



(** C9: every own member of a frozen dictionary has that dictionary as
    its owner, from the freeze on and whatever is done to the builder
    afterwards. *)
Theorem members_owned_by_dictionary (h : heap) ir c d h' ms :
  builder_contents h ir = Ret c ->
  Dictionary_init ir h = Ret (d, h') ->
  forallb (mutates_builder (builder_cells h ir) (length h')) ms = true ->
  exists own,
    Dictionary_own_members h' d = Ret own
    /\ Dictionary_own_members (mutate ms h') d = Ret own
    /\ length own = length (c_own_members c)
    /\ Forall (fun m => member_owner h' m = Ret d) own
    /\ Forall (fun m => member_owner (mutate ms h') m = Ret d) own.
Proof.
  intros Hc Hinit Hms.
  destruct (frozen_after_mutation h ir c d h' ms Hc Hinit Hms)
    as (_ & D & [_ HD] & _ & _ & Hown & _).
  destruct (frozen_after_mutation h ir c d h' [] Hc Hinit eq_refl)
    as (_ & D0 & [_ HD0] & _ & _ & Hown0 & _).
  simpl in HD0, Hown0.
  assert (D = D0).
  { destruct (Dictionary_init_frozen _ _ _ _ _ Hc Hinit)
      as (_ & Hd & _ & _).
    assert (Hag : agree (length h) h' (mutate ms h')).
    { eapply mutate_agree; [|exact Hms|apply agree_refl].
      eapply builder_cells_allocated, builder_contents_at, Hc. }
    apply Hag in HD0; [|lia]. congruence. }
  subst D0. exists (d_own_members D).
  unfold Dictionary_own_members, get_Dictionary. rewrite HD, HD0.
  repeat split.
  - apply Forall2_length in Hown0. now rewrite length_map in Hown0.
  - eapply members_at_owner, Hown0.
  - eapply members_at_owner, Hown.
Qed.

Lemma members_owned_by_dictionary_witness :
  (builder_contents (snd builder_example) (fst builder_example)
     = Ret Derived_contents
   /\ Dictionary_init (fst builder_example) (snd builder_example)
      = Ret (fst frozen_example, snd frozen_example)
   /\ forallb (mutates_builder
                 (builder_cells (snd builder_example) (fst builder_example))
                 (length (snd frozen_example))) example_mutations = true)
  /\ exists own,
       Dictionary_own_members (snd frozen_example) (fst frozen_example)
         = Ret own
       /\ Dictionary_own_members
            (mutate example_mutations (snd frozen_example))
            (fst frozen_example) = Ret own
       /\ length own = length (c_own_members Derived_contents)
       /\ Forall (fun m => member_owner (snd frozen_example) m
                           = Ret (fst frozen_example)) own
       /\ Forall (fun m => member_owner
                             (mutate example_mutations (snd frozen_example)) m
                           = Ret (fst frozen_example)) own.
Proof.
  assert (Hms : forallb (mutates_builder
                   (builder_cells (snd builder_example) (fst builder_example))
                   (length (snd frozen_example))) example_mutations = true)
    by (vm_compute; reflexivity).
  split; [split; [exact builder_example_contents|
                  split; [exact frozen_example_eq|exact Hms]]|].
  exact (members_owned_by_dictionary _ _ _ _ _ _
           builder_example_contents frozen_example_eq Hms).
Defined.


(** * Further properties of the builders and of the freeze *)

(** ** What the mixins do to the heap *)

Lemma with_value_inv (h : heap) v l h' :
  with_value v h = Ret (l, h') ->
  part_arg_ok h v = true
  /\ h `prefix_of` h'
  /\ h' !! l = Some (OValue (part_arg_contents h v))
  /\ (forall r, v = VRef r -> l = r /\ h' = h).
Proof.
  destruct v as [| | |r]; simpl; try discriminate.
  - unfold alloc. intros H. inversion H; subst. repeat split.
    + prefix_tac.
    + apply cell_alloc.
    + discriminate.
    + discriminate.
  - destruct (h !! r) as [[]|] eqn:E; simpl; try discriminate.
    intros H. inversion H; subst. repeat split; try reflexivity.
    + exact E.
    + now inversion H0.
Qed.

Lemma with_value_ok (h0 h : heap) v :
  part_arg_ok h0 v = true -> h0 `prefix_of` h ->
  exists l h',
    with_value v h = Ret (l, h')
    /\ h `prefix_of` h'
    /\ cell 0 h' l (OValue (part_arg_contents h0 v)).
Proof.
  intros Hok [t ->]. destruct v as [| | |r]; simpl in *; try discriminate.
  - eexists _, _. split; [reflexivity|]. split; [prefix_tac|].
    eapply cell_mono; [apply cell_alloc|lia|agree_tac].
  - destruct (h0 !! r) as [[]|] eqn:E; try discriminate.
    rewrite (lookup_app_l_Some _ t _ _ E). eexists _, _.
    split; [reflexivity|]. split; [reflexivity|].
    split; [lia|]. now apply lookup_app_l_Some.
Qed.

Lemma with_value_reject (h0 h : heap) v :
  part_arg_ok h0 v = false -> allocated h0 v = true -> h0 `prefix_of` h ->
  with_value v h = Raise AssertionError.
Proof.
  intros Hok Hal [t ->]. destruct v as [| | |r]; simpl in *;
    try discriminate; try reflexivity.
  apply Nat.ltb_lt in Hal. rewrite lookup_app_l by exact Hal.
  now rewrite Hok.
Qed.

Lemma with_component_inv (h : heap) v l h' :
  with_component v h = Ret (l, h') ->
  component_arg_ok v = true
  /\ h `prefix_of` h'
  /\ h' !! l = Some (OValue (component_arg_contents v)).
Proof.
  destruct v as [| |s|]; simpl; try discriminate; unfold alloc;
    intros H; inversion H; subst; repeat split;
    try prefix_tac; apply cell_alloc.
Qed.

Lemma with_component_ok (h : heap) v :
  component_arg_ok v = true ->
  with_component v h
    = Ret (length h, h ++ [OValue (component_arg_contents v)]).
Proof. destruct v; simpl; try discriminate; reflexivity. Qed.

Lemma with_component_reject (h : heap) v :
  component_arg_ok v = false -> with_component v h = Raise AssertionError.
Proof. destruct v; simpl; try discriminate; reflexivity. Qed.

Lemma bind_inv {A B} (c : M A) (k : A -> M B) (h : heap) r :
  bind c k h = Ret r -> exists a h1, c h = Ret (a, h1) /\ k a h1 = Ret r.
Proof.
  unfold bind. destruct (c h) as [[a h1]|e]; [eauto|discriminate].
Qed.

Lemma assert_on_inv (p : heap -> bool) (h : heap) u h' :
  assert_on p h = Ret (u, h') -> p h = true /\ h' = h.
Proof.
  unfold assert_on. destruct (p h); [|discriminate].
  intros H. now inversion H.
Qed.

Lemma py_assert_inv b (h : heap) u h' :
  py_assert b h = Ret (u, h') -> b = true /\ h' = h.
Proof. destruct b; simpl; [|discriminate]. intros H. now inversion H. Qed.

Lemma read_inv (h : heap) l o h' :
  read l h = Ret (o, h') -> h !! l = Some o /\ h' = h.
Proof.
  unfold read. destruct (h !! l); [|discriminate]. intros H.
  now inversion H.
Qed.

Lemma member_ir_at_contents lo (h : heap) l c :
  member_ir_at lo h l c -> member_ir_contents h l = Ret c.
Proof.
  intros (ir & [_ Hir] & Hid & Hty & Hdv & Hps).
  unfold member_ir_contents. rewrite Hir.
  apply cell_zero, get_IdlType_cell in Hty. rewrite Hty. cbn [res_bind].
  rewrite (option_at_get_literal _ _ _ _ Hdv). cbn [res_bind].
  rewrite (parts_at_contents _ _ _ _ Hps). cbn [res_bind].
  destruct c; simpl in *. now subst.
Qed.

Lemma members_ir_at_contents lo (h : heap) ls cs :
  Forall2 (member_ir_at lo h) ls cs ->
  res_mapM (member_ir_contents h) ls = Ret cs.
Proof.
  induction 1 as [|l c ls cs Hl _ IH]; simpl; [reflexivity|].
  now rewrite (member_ir_at_contents _ _ _ _ Hl), IH.
Qed.

Lemma builder_at_contents lo (h : heap) l c :
  builder_at lo h l c -> builder_contents h l = Ret c.
Proof.
  intros (ir & elems & [_ Hir] & Hid & Hp & Hinh & [_ Hlist] & Hms & Hps).
  unfold builder_contents. rewrite Hir.
  rewrite (option_at_get_ref _ _ _ _ Hinh). cbn [res_bind]. rewrite Hlist.
  rewrite (members_ir_at_contents _ _ _ _ Hms). cbn [res_bind].
  rewrite (parts_at_contents _ _ _ _ Hps). cbn [res_bind].
  destruct c; simpl in *. now subst.
Qed.

Lemma agree_prefix lo (h h' : heap) : h `prefix_of` h' -> agree lo h h'.
Proof. intros [t ->]. apply agree_app. Qed.

(** ** [DictionaryMember.IR.__init__] *)

Lemma default_assert_run (h : heap) ty t dv lit :
  h !! ty = Some (OIdlType t) ->
  option_at OLiteralConstant 0 h dv lit ->
  dv = None \/ is_optional t = true ->
  (is_None (value_of dv) || isinstance is_LiteralConstant (value_of dv) h
   = true)
  /\ (if negb (truthy (value_of dv)) then ret true
      else attr_is_optional (VRef ty)) h = Ret (true, h).
Proof.
  intros Hty Hdv Hopt. destruct dv as [d|], lit as [c|]; simpl in *;
    try contradiction; [|split; reflexivity].
  rewrite (proj2 Hdv). split; [reflexivity|].
  rewrite (attr_is_optional_run _ _ _ Hty).
  destruct Hopt as [Hn|Ho]; [discriminate|now rewrite Ho].
Qed.

(** X1: A member builder is made for a type with no default, and for an
    optional type with a default; it holds the caller's type and default
    objects themselves and shows the arguments it was given. *)
Theorem member_builder_contents (h : heap) identifier ty t dv lit ea co di :
  h !! ty = Some (OIdlType t) ->
  option_at OLiteralConstant 0 h dv lit ->
  dv = None \/ is_optional t = true ->
  part_arg_ok h ea = true ->
  component_arg_ok co = true ->
  part_arg_ok h di = true ->
  exists l h' ir,
    DictionaryMember_IR_init identifier (VRef ty) (value_of dv) ea co di h
      = Ret (l, h')
    /\ h `prefix_of` h'
    /\ h' !! l = Some (OMemberIR ir)
    /\ mir_idl_type ir = ty
    /\ mir_default_value ir = dv
    /\ member_ir_contents h' l
       = Ret {| c_member_identifier := identifier;
                c_idl_type := t;
                c_default_value := lit;
                c_member_parts := arg_parts h ea co di |}.
Proof.
  intros Hty Hdv Hopt Hea Hco Hdi.
  destruct (default_assert_run h ty t dv lit Hty Hdv Hopt) as [A2 A3].
  destruct (with_value_ok h h ea Hea ltac:(reflexivity))
    as (l1 & h1 & E1 & [t1 ->] & C1).
  destruct (with_value_ok h
              ((((h ++ t1) ++ [OValue ""]) ++ [OValue ""])
                 ++ [OValue (component_arg_contents co)]) di Hdi
              ltac:(prefix_tac))
    as (l3 & h3 & E3 & [t3 ->] & C3).
  eexists _, _, _. split.
  { unfold DictionaryMember_IR_init.
    pass_assert ltac:(simpl; now rewrite Hty).
    pass_assert ltac:(exact A2).
    step A3. unfold py_assert, ret at 1, bind at 1.
    step E1. unfold with_value at 1 2, alloc at 1 2. unfold bind at 1 2.
    step (with_component_ok (((h ++ t1) ++ [OValue ""]) ++ [OValue ""])
            co Hco).
    step E3. reflexivity. }
  split; [prefix_tac|]. split; [apply cell_alloc|].
  split; [reflexivity|].
  split; [now destruct dv|].
  apply (member_ir_at_contents 0). eexists.
  split; [split; [lia|apply cell_alloc]|].
  cbn. unfold parts_at. cbn. conjs.
  - reflexivity.
  - split; [lia|]. do 5 apply lookup_app_l_Some.
    now apply lookup_app_l_Some.
  - destruct dv, lit; simpl in *; try contradiction; [|exact I].
    split; [lia|]. do 5 apply lookup_app_l_Some.
    apply lookup_app_l_Some, Hdv.
  - lift C1.
  - eapply cell_mono; [apply cell_alloc|lia|agree_tac].
  - eapply cell_mono; [apply cell_alloc|lia|agree_tac].
  - eapply cell_mono; [apply cell_alloc|lia|agree_tac].
  - lift C3.
Qed.

Lemma assert_on_fail {B} (p : heap -> bool) (k : unit -> M B) (h : heap) :
  p h = false -> bind (assert_on p) k h = Raise AssertionError.
Proof. unfold bind, assert_on. now intros ->. Qed.

Lemma bind_fail {A B} (c : M A) (k : A -> M B) (h : heap) e :
  c h = Raise e -> bind c k h = Raise e.
Proof. unfold bind. now intros ->. Qed.

Lemma with_value_reject_now (h : heap) v :
  part_arg_ok h v = false -> with_value v h = Raise AssertionError.
Proof.
  destruct v as [| | |r]; simpl; try discriminate; try reflexivity.
  now intros ->.
Qed.

Lemma isinstance_IdlType_inv (h : heap) v :
  isinstance is_IdlType v h = true ->
  exists l t, v = VRef l /\ h !! l = Some (OIdlType t).
Proof.
  destruct v as [| | |l]; simpl; try discriminate.
  destruct (h !! l) as [[| t | | | | | | |]|] eqn:E; simpl; try discriminate.
  intros _. exists l, t. split; [reflexivity|exact E].
Qed.

Lemma optional_assert_run (h : heap) dv ty t :
  h !! ty = Some (OIdlType t) ->
  (if negb (truthy dv) then ret true else attr_is_optional (VRef ty)) h
  = Ret (negb (truthy dv) || type_is_optional h (VRef ty), h).
Proof.
  intros Hty. simpl. rewrite Hty.
  destruct (negb (truthy dv)); [reflexivity|].
  now rewrite (attr_is_optional_run _ _ _ Hty).
Qed.

(** X2: Every other call of [DictionaryMember.IR.__init__] fails, and with an
    assertion error: a type that is not an [IdlType], a default that is
    neither [None] nor a [LiteralConstant], a default with a type that is
    not optional, an argument of a mixin of the wrong kind. *)
Theorem member_builder_rejects (h : heap) identifier idl_type dv ea co di :
  allocated h di = true ->
  member_args_ok h idl_type dv ea co di = false ->
  DictionaryMember_IR_init identifier idl_type dv ea co di h
    = Raise AssertionError.
Proof.
  intros Hal Hno. unfold member_args_ok in Hno.
  unfold DictionaryMember_IR_init.
  destruct (isinstance is_IdlType idl_type h) eqn:B1;
    [|now apply assert_on_fail].
  pass_assert ltac:(exact B1).
  destruct (is_None dv || isinstance is_LiteralConstant dv h) eqn:B2;
    [|now apply assert_on_fail].
  pass_assert ltac:(exact B2).
  destruct (isinstance_IdlType_inv _ _ B1) as (ty & t & -> & Hty).
  step (optional_assert_run h dv ty t Hty).
  destruct (negb (truthy dv) || type_is_optional h (VRef ty)) eqn:B3;
    [|reflexivity].
  unfold py_assert, ret at 1, bind at 1. cbn [andb] in Hno.
  destruct (part_arg_ok h ea) eqn:B4;
    [|now apply bind_fail, with_value_reject_now].
  destruct (with_value_ok h h ea B4 ltac:(reflexivity))
    as (l1 & h1 & E1 & [t1 ->] & _).
  step E1. unfold with_value at 1 2, alloc at 1 2. unfold bind at 1 2.
  cbn [andb] in Hno.
  destruct (component_arg_ok co) eqn:B5;
    [|now apply bind_fail, with_component_reject].
  step (with_component_ok (((h ++ t1) ++ [OValue ""]) ++ [OValue ""])
          co B5).
  cbn [andb] in Hno. apply bind_fail.
  apply (with_value_reject h); [exact Hno|exact Hal|prefix_tac].
Qed.

Lemma member_builder_rejects_witness :
  (allocated member_args_heap VNone = true
   /\ member_args_ok member_args_heap (VRef 2) (VRef 0) VNone VNone VNone
      = false)
  /\ DictionaryMember_IR_init "x" (VRef 2) (VRef 0) VNone VNone VNone
       member_args_heap = Raise AssertionError.
Proof.
  split; [split; reflexivity|].
  apply member_builder_rejects; reflexivity.
Defined.

Lemma DictionaryMember_IR_init_inv (h : heap) identifier idl_type dv ea co di
    l h' :
  DictionaryMember_IR_init identifier idl_type dv ea co di h = Ret (l, h') ->
  exists c,
    h `prefix_of` h'
    /\ member_ir_contents h' l = Ret c
    /\ c_member_identifier c = identifier
    /\ (c_default_value c = None \/ is_optional (c_idl_type c) = true)
    /\ (c_default_value c = None <-> dv = VNone).
Proof.
  unfold DictionaryMember_IR_init. intros H.
  apply bind_inv in H. destruct H as (? & h0 & A1 & H).
  apply assert_on_inv in A1. destruct A1 as [A1 ->].
  apply bind_inv in H. destruct H as (? & h0 & A2 & H).
  apply assert_on_inv in A2. destruct A2 as [A2 ->].
  destruct (isinstance_IdlType_inv _ _ A1) as (ty & t & -> & Hty).
  rewrite (bind_run _ _ _ _ _ (optional_assert_run h dv ty t Hty)) in H.
  apply bind_inv in H. destruct H as (? & h0 & A3 & H).
  apply py_assert_inv in A3. destruct A3 as [A3 ->].
  apply bind_inv in H. destruct H as (l1 & h1 & E1 & H).
  apply with_value_inv in E1. destruct E1 as (_ & [t1 ->] & C1 & _).
  unfold with_value at 1 2, alloc at 1 2 in H. unfold bind at 1 2 in H.
  apply bind_inv in H. destruct H as (l2 & h2 & E2 & H).
  apply with_component_inv in E2. destruct E2 as (_ & [t2 ->] & C2).
  apply bind_inv in H. destruct H as (l3 & h3 & E3 & H).
  apply with_value_inv in E3. destruct E3 as (_ & [t3 ->] & C3 & _).
  unfold alloc in H. inversion H; subst; clear H.
  assert (Hdv : exists lit,
             option_at OLiteralConstant 0 h (ref_of dv) lit
             /\ (lit = None <-> dv = VNone)
             /\ (lit = None \/ is_optional t = true)).
  { destruct dv as [| | |d]; simpl in A2; try discriminate.
    - exists None. repeat split; auto.
    - destruct (h !! d) as [[| |c| | | | | |]|] eqn:Hd; try discriminate.
      exists (Some c). repeat split; try discriminate.
      + lia.
      + exact Hd.
      + right. simpl in A3. now rewrite Hty in A3. }
  destruct Hdv as (lit & Hlit & Hnone & Hopt).
  eexists {| c_member_identifier := identifier; c_idl_type := t;
             c_default_value := lit;
             c_member_parts :=
               {| c_extended_attributes := part_arg_contents h ea;
                  c_code_generator_info := "";
                  c_exposure := "";
                  c_components := component_arg_contents co;
                  c_debug_info := _ |} |}.
  split; [prefix_tac|].
  split; [|split; [reflexivity|split; [exact Hopt|exact Hnone]]].
  apply (member_ir_at_contents 0). eexists.
  split; [split; [lia|apply cell_alloc]|].
  cbn. unfold parts_at. cbn. conjs.
  - reflexivity.
  - split; [lia|]. do 5 apply lookup_app_l_Some.
    now apply lookup_app_l_Some.
  - eapply option_at_mono; [exact Hlit|lia|agree_tac].
  - eapply (cell_mono 0); [split; [lia|exact C1]|lia|agree_tac].
  - eapply cell_mono; [apply cell_alloc|lia|agree_tac].
  - eapply cell_mono; [apply cell_alloc|lia|agree_tac].
  - eapply (cell_mono 0); [split; [lia|exact C2]|lia|agree_tac].
  - eapply (cell_mono 0); [split; [lia|exact C3]|lia|agree_tac].
Qed.

(** X3: A member builder that has been made holds a type, and holds a default
    only if that type is optional and only if one was given. *)
Theorem member_builder_invariant (h : heap) identifier idl_type dv ea co di
    l h' :
  DictionaryMember_IR_init identifier idl_type dv ea co di h = Ret (l, h') ->
  exists c,
    h `prefix_of` h'
    /\ member_ir_contents h' l = Ret c
    /\ c_member_identifier c = identifier
    /\ (c_default_value c = None \/ is_optional (c_idl_type c) = true)
    /\ (c_default_value c = None <-> dv = VNone).
Proof. apply DictionaryMember_IR_init_inv. Qed.

(** ** [Dictionary.IR.__init__] and [iter_all_members] *)

Lemma inherited_assert_run (h : heap) inh r :
  option_at ORefById 0 h inh r ->
  is_None (value_of inh) || isinstance is_RefById (value_of inh) h = true.
Proof.
  destruct inh as [l|], r as [r|]; simpl; try contradiction;
    [|reflexivity].
  now intros [_ ->].
Qed.

Lemma deref_list_run (h : heap) lst elems :
  h !! lst = Some (OList elems) ->
  bind (deref (VRef lst))
       (fun o => match o with
                 | OList elems => ret elems
                 | _ => raise AttributeError
                 end) h = Ret (elems, h).
Proof. intros H. unfold deref. now step (read_run _ _ _ H). Qed.

Lemma Dictionary_IR_init_made (h : heap) identifier p inh r lst elems
    ea co di :
  option_at ORefById 0 h inh r ->
  h !! lst = Some (OList elems) ->
  forallb (fun m => is_MemberIR (h !! m)) elems = true ->
  part_arg_ok h ea = true ->
  component_arg_ok co = true ->
  part_arg_ok h di = true ->
  exists ir h' b,
    Dictionary_IR_init identifier (VBool p) (value_of inh) (VRef lst)
      ea co di h = Ret (ir, h')
    /\ h `prefix_of` h'
    /\ cell (length h) h' ir (ODictionaryIR b)
    /\ ir_identifier b = identifier
    /\ ir_is_partial b = p
    /\ ir_kind b = (if p then PARTIAL_DICTIONARY else DICTIONARY)
    /\ ir_inherited b = inh
    /\ cell (length h) h' (ir_own_members b) (OList elems)
    /\ parts_at 0 h' (ir_parts b) (arg_parts h ea co di).
Proof.
  intros Hinh Hlst Hms Hea Hco Hdi.
  destruct (with_value_ok h h ea Hea ltac:(reflexivity))
    as (l1 & h1 & E1 & [t1 ->] & C1).
  destruct (with_value_ok h
              ((((h ++ t1) ++ [OValue ""]) ++ [OValue ""])
                 ++ [OValue (component_arg_contents co)]) di Hdi
              ltac:(prefix_tac))
    as (l3 & h3 & E3 & [t3 ->] & C3).
  assert (Hlen : length h <= length (h ++ t1)) by len_tac.
  eexists _, _, _. split.
  { unfold Dictionary_IR_init.
    change (is_bool (VBool p)) with true.
    unfold py_assert, ret at 1, bind at 1.
    pose proof (inherited_assert_run h inh r Hinh) as A2.
    pass_assert ltac:(exact A2).
    pass_assert ltac:(simpl; now rewrite Hlst).
    step E1. unfold with_value at 1 2, alloc at 1 2. unfold bind at 1 2.
    step (with_component_ok (((h ++ t1) ++ [OValue ""]) ++ [OValue ""])
            co Hco).
    step E3.
    match goal with
    | |- bind _ _ ?hc = _ =>
        assert (Hl : hc !! lst = Some (OList elems))
          by (do 5 apply lookup_app_l_Some; exact Hlst);
        step (deref_list_run hc lst elems Hl)
    end.
    unfold alloc at 1, bind at 1. reflexivity. }
  split; [prefix_tac|].
  split; [eapply cell_mono; [apply cell_alloc|len_tac|agree_tac]|].
  cbn. split; [reflexivity|]. split; [reflexivity|].
  split; [now destruct p|]. split; [now destruct inh|].
  split; [eapply cell_mono; [apply cell_alloc|len_tac|agree_tac]|].
  unfold parts_at. cbn. conjs.
  - lift C1.
  - eapply cell_mono; [apply cell_alloc|lia|agree_tac].
  - eapply cell_mono; [apply cell_alloc|lia|agree_tac].
  - eapply cell_mono; [apply cell_alloc|lia|agree_tac].
  - lift C3.
Qed.

Lemma iter_all_members_run (h : heap) ir b elems :
  h !! ir = Some (ODictionaryIR b) ->
  h !! ir_own_members b = Some (OList elems) ->
  iter_all_members ir h = Ret (elems, h).
Proof.
  intros Hir Hms. unfold iter_all_members.
  step (read_run _ _ _ Hir). now step (read_run _ _ _ Hms).
Qed.

(** X5: A dictionary builder made from a list of member builders keeps the
    identifier, the partial flag (and the kind that goes with it) and the
    inherited reference, and [iter_all_members] gives back the member
    builders it was given, the same objects in the same order. *)
Theorem dictionary_builder_iter_all_members (h : heap) identifier p inh r lst
    elems ea co di :
  option_at ORefById 0 h inh r ->
  h !! lst = Some (OList elems) ->
  forallb (fun m => is_MemberIR (h !! m)) elems = true ->
  part_arg_ok h ea = true ->
  component_arg_ok co = true ->
  part_arg_ok h di = true ->
  exists ir h' b,
    Dictionary_IR_init identifier (VBool p) (value_of inh) (VRef lst)
      ea co di h = Ret (ir, h')
    /\ h `prefix_of` h'
    /\ h' !! ir = Some (ODictionaryIR b)
    /\ ir_identifier b = identifier
    /\ ir_is_partial b = p
    /\ ir_kind b = (if p then PARTIAL_DICTIONARY else DICTIONARY)
    /\ ir_inherited b = inh
    /\ iter_all_members ir h' = Ret (elems, h').
Proof.
  intros Hinh Hlst Hms Hea Hco Hdi.
  destruct (Dictionary_IR_init_made h identifier p inh r lst elems ea co di
              Hinh Hlst Hms Hea Hco Hdi)
    as (ir & h' & b & E & Hpre & [_ Hir] & Hid & Hp & Hk & Hi & [_ Hl] & _).
  exists ir, h', b. conjs; try assumption.
  now apply iter_all_members_run with (b := b).
Qed.

(** X6: The builder has a list of its own: assigning to the list object the
    caller passed, after the builder was made, does not change what
    [iter_all_members] returns. *)
Theorem dictionary_builder_owns_its_list (h : heap) identifier p inh r lst
    elems ea co di o :
  option_at ORefById 0 h inh r ->
  h !! lst = Some (OList elems) ->
  forallb (fun m => is_MemberIR (h !! m)) elems = true ->
  part_arg_ok h ea = true ->
  component_arg_ok co = true ->
  part_arg_ok h di = true ->
  exists ir h',
    Dictionary_IR_init identifier (VBool p) (value_of inh) (VRef lst)
      ea co di h = Ret (ir, h')
    /\ iter_all_members ir (<[lst := o]> h')
       = Ret (elems, <[lst := o]> h').
Proof.
  intros Hinh Hlst Hms Hea Hco Hdi.
  destruct (Dictionary_IR_init_made h identifier p inh r lst elems ea co di
              Hinh Hlst Hms Hea Hco Hdi)
    as (ir & h' & b & E & Hpre & [Hlo Hir] & _ & _ & _ & _ & [Hlo' Hl] & _).
  exists ir, h'. split; [exact E|].
  apply lookup_lt_Some in Hlst.
  apply iter_all_members_run with (b := b);
    rewrite list_lookup_insert_ne by lia; assumption.
Qed.

Lemma Dictionary_IR_init_rejects (h : heap) identifier is_partial inherited
    own_members ea co di :
  allocated h di = true ->
  dictionary_args_ok h is_partial inherited own_members ea co di = false ->
  Dictionary_IR_init identifier is_partial inherited own_members ea co di h
    = Raise AssertionError.
Proof.
  intros Hal Hno. unfold dictionary_args_ok in Hno.
  unfold Dictionary_IR_init.
  destruct (is_bool is_partial) eqn:B1; [|reflexivity].
  unfold py_assert, ret at 1, bind at 1.
  destruct (is_None inherited || isinstance is_RefById inherited h) eqn:B2;
    [|now apply assert_on_fail].
  pass_assert ltac:(exact B2).
  destruct (is_member_ir_list own_members h) eqn:B3;
    [|now apply assert_on_fail].
  pass_assert ltac:(exact B3). cbn [andb] in Hno.
  destruct (part_arg_ok h ea) eqn:B4;
    [|now apply bind_fail, with_value_reject_now].
  destruct (with_value_ok h h ea B4 ltac:(reflexivity))
    as (l1 & h1 & E1 & [t1 ->] & _).
  step E1. unfold with_value at 1 2, alloc at 1 2. unfold bind at 1 2.
  cbn [andb] in Hno.
  destruct (component_arg_ok co) eqn:B5;
    [|now apply bind_fail, with_component_reject].
  step (with_component_ok (((h ++ t1) ++ [OValue ""]) ++ [OValue ""])
          co B5).
  cbn [andb] in Hno. apply bind_fail.
  apply (with_value_reject h); [exact Hno|exact Hal|prefix_tac].
Qed.

(** X4: [Dictionary.IR.__init__] fails with an assertion error on every call
    whose arguments it does not accept: a partial flag that is not a
    boolean, an inherited reference that is neither [None] nor a
    [RefById], members that are not a list of member builders, an argument
    of a mixin of the wrong kind.  The default of [own_members], [None],
    is among them: the members must be given. *)
Theorem dictionary_builder_rejects (h : heap) identifier is_partial inherited
    own_members ea co di :
  allocated h di = true ->
  dictionary_args_ok h is_partial inherited own_members ea co di = false ->
  Dictionary_IR_init identifier is_partial inherited own_members ea co di h
    = Raise AssertionError
  /\ Dictionary_IR_init identifier is_partial inherited VNone ea co di h
     = Raise AssertionError.
Proof.
  intros Hal Hno. split; [now apply Dictionary_IR_init_rejects|].
  apply Dictionary_IR_init_rejects; [exact Hal|].
  unfold dictionary_args_ok. cbn [is_member_ir_list].
  now rewrite andb_false_r.
Qed.

Lemma dictionary_builder_rejects_witness :
  (allocated member_args_heap VNone = true
   /\ dictionary_args_ok member_args_heap (VBool false) VNone (VRef 0)
        VNone VNone VNone = false)
  /\ Dictionary_IR_init "D" (VBool false) VNone (VRef 0) VNone VNone VNone
       member_args_heap = Raise AssertionError
  /\ Dictionary_IR_init "D" (VBool false) VNone VNone VNone VNone VNone
       member_args_heap = Raise AssertionError.
Proof.
  split; [split; reflexivity|].
  apply dictionary_builder_rejects; reflexivity.
Defined.

Lemma members_ir_at_forallb lo (h : heap) elems cs :
  Forall2 (member_ir_at lo h) elems cs ->
  forallb (fun m => is_MemberIR (h !! m)) elems = true.
Proof.
  induction 1 as [|l c ls cs Hl _ IH]; simpl; [reflexivity|].
  destruct Hl as (ir & [_ Hir] & _). now rewrite Hir, IH.
Qed.

Lemma Dictionary_IR_init_builder_at (h : heap) identifier p inh r lst elems
    cs ea co di :
  option_at ORefById 0 h inh r ->
  h !! lst = Some (OList elems) ->
  res_mapM (member_ir_contents h) elems = Ret cs ->
  part_arg_ok h ea = true ->
  component_arg_ok co = true ->
  part_arg_ok h di = true ->
  exists ir h',
    Dictionary_IR_init identifier (VBool p) (value_of inh) (VRef lst)
      ea co di h = Ret (ir, h')
    /\ h `prefix_of` h'
    /\ builder_at 0 h' ir
         {| c_identifier := identifier;
            c_is_partial := p;
            c_inherited := r;
            c_own_members := cs;
            c_parts := arg_parts h ea co di |}.
Proof.
  intros Hinh Hlst Hcs Hea Hco Hdi.
  apply members_ir_contents_at in Hcs.
  destruct (Dictionary_IR_init_made h identifier p inh r lst elems ea co di
              Hinh Hlst (members_ir_at_forallb _ _ _ _ Hcs) Hea Hco Hdi)
    as (ir & h' & b & E & Hpre & Hir & Hid & Hp & Hk & Hi & Hl & Hps).
  exists ir, h'. split; [exact E|]. split; [exact Hpre|].
  exists b, elems. cbn. conjs; try assumption.
  - now apply cell_zero in Hir.
  - rewrite Hi. eapply option_at_mono; [exact Hinh|lia|].
    now apply agree_prefix.
  - now apply cell_zero in Hl.
  - eapply Forall2_impl; [exact Hcs|]. intros x y Hxy.
    eapply member_ir_at_mono; [exact Hxy|lia|now apply agree_prefix].
Qed.

(** X7: A dictionary builder made from well-formed member builders holds what
    it was given: identifier, partial flag, inherited reference, the
    members in order, the value objects of its arguments. *)
Theorem dictionary_builder_contents (h : heap) identifier p inh r lst elems
    cs ea co di :
  option_at ORefById 0 h inh r ->
  h !! lst = Some (OList elems) ->
  res_mapM (member_ir_contents h) elems = Ret cs ->
  part_arg_ok h ea = true ->
  component_arg_ok co = true ->
  part_arg_ok h di = true ->
  exists ir h',
    Dictionary_IR_init identifier (VBool p) (value_of inh) (VRef lst)
      ea co di h = Ret (ir, h')
    /\ builder_contents h' ir
       = Ret {| c_identifier := identifier;
                c_is_partial := p;
                c_inherited := r;
                c_own_members := cs;
                c_parts := arg_parts h ea co di |}.
Proof.
  intros Hinh Hlst Hcs Hea Hco Hdi.
  destruct (Dictionary_IR_init_builder_at h identifier p inh r lst elems cs
              ea co di Hinh Hlst Hcs Hea Hco Hdi)
    as (ir & h' & E & _ & Hat).
  exists ir, h'. split; [exact E|]. now apply builder_at_contents in Hat.
Qed.

(** X8: Making a builder and freezing it: a builder made partial is always
    rejected by the freeze; one made not partial is always frozen, and the
    dictionary shows what the builder was made from. *)
Theorem construct_then_freeze (h : heap) identifier p inh r lst elems cs
    ea co di :
  option_at ORefById 0 h inh r ->
  h !! lst = Some (OList elems) ->
  res_mapM (member_ir_contents h) elems = Ret cs ->
  part_arg_ok h ea = true ->
  component_arg_ok co = true ->
  part_arg_ok h di = true ->
  exists ir h',
    Dictionary_IR_init identifier (VBool p) (value_of inh) (VRef lst)
      ea co di h = Ret (ir, h')
    /\ if p
       then Dictionary_init ir h' = Raise AssertionError
       else exists d h'',
              Dictionary_init ir h' = Ret (d, h'')
              /\ Dictionary_view h'' d
                 = Ret {| v_identifier := identifier;
                          v_inherited := r;
                          v_own_members := map (frozen_member d) cs;
                          v_parts := arg_parts h ea co di |}.
Proof.
  intros Hinh Hlst Hcs Hea Hco Hdi.
  destruct (Dictionary_IR_init_builder_at h identifier p inh r lst elems cs
              ea co di Hinh Hlst Hcs Hea Hco Hdi)
    as (ir & h' & E & _ & Hat).
  exists ir, h'. split; [exact E|]. destruct p.
  - destruct Hat as (b & ? & [_ Hb] & _ & Hp & _).
    now apply Dictionary_init_partial with (b := b).
  - destruct (Dictionary_init_spec h' ir _ Hat eq_refl)
      as (h'' & E' & _ & Hat').
    exists (length h'), h''. split; [exact E'|].
    now apply dictionary_at_view in Hat'.
Qed.

(** ** The freeze: what it rejects, what it leaves alone *)

(** X9: [Dictionary.__init__] fails with an assertion error on anything that
    is not a [Dictionary.IR]: an object of another class, or no object. *)
Theorem freeze_rejects_non_builder (h : heap) ir :
  is_DictionaryIR (h !! ir) = false ->
  Dictionary_init ir h = Raise AssertionError.
Proof.
  intros Hno. unfold Dictionary_init. unfold alloc at 1, bind at 1.
  apply assert_on_fail.
  destruct (Nat.lt_ge_cases ir (length h)) as [Hlt|Hge].
  - now rewrite lookup_app_l.
  - rewrite lookup_app_r by exact Hge.
    now destruct (ir - length h) as [|[|n]].
Qed.

Lemma freeze_rejects_non_builder_witness :
  is_DictionaryIR (example_heap !! Base) = false
  /\ Dictionary_init Base example_heap = Raise AssertionError.
Proof.
  split; [reflexivity|]. now apply freeze_rejects_non_builder.
Defined.

(** X10: [DictionaryMember.__init__] fails with an assertion error unless it is
    given a [DictionaryMember.IR] and an owner that is a [Dictionary]. *)
Theorem member_freeze_rejects (h : heap) ir owner :
  is_MemberIR (h !! ir) && is_Dictionary (h !! owner) = false ->
  DictionaryMember_init ir owner h = Raise AssertionError.
Proof.
  intros Hno. unfold DictionaryMember_init.
  destruct (is_MemberIR (h !! ir)) eqn:B1; [|now apply assert_on_fail].
  pass_assert ltac:(exact B1). now apply assert_on_fail.
Qed.

Lemma member_freeze_rejects_witness :
  is_MemberIR (member_args_heap !! 0) && is_Dictionary (member_args_heap !! 1)
  = false
  /\ DictionaryMember_init 0 1 member_args_heap = Raise AssertionError.
Proof.
  split; [reflexivity|]. now apply member_freeze_rejects.
Defined.

(** X11: A member frozen on its own, for any dictionary as owner: it reports
    the builder's identifier, type and default, the owner it was given,
    and whether it is required; its type is an object of its own, not the
    builder's; the heap that was there is untouched. *)
Theorem member_freeze_accessors (h : heap) ir owner c :
  member_ir_contents h ir = Ret c ->
  is_Dictionary (h !! owner) = true ->
  exists m h',
    DictionaryMember_init ir owner h = Ret (m, h')
    /\ h `prefix_of` h'
    /\ member_view h' m = Ret (frozen_member owner c)
    /\ member_identifier h' m = Ret (c_member_identifier c)
    /\ member_owner h' m = Ret owner
    /\ member_is_required h' m = Ret (negb (is_optional (c_idl_type c)))
    /\ (exists ty, member_idl_type h' m = Ret ty
                   /\ length h <= ty
                   /\ get_IdlType h' ty = Ret (c_idl_type c))
    /\ (exists dv, member_default_value h' m = Ret dv
                   /\ get_option get_LiteralConstant h' dv
                      = Ret (c_default_value c)).
Proof.
  intros Hc Hown. apply member_ir_contents_at in Hc.
  destruct (h !! owner) as [[| | | | | | | |D]|] eqn:HD; try discriminate.
  destruct (DictionaryMember_init_spec 0 h h ir owner D c Hc
              (agree_refl _ _) HD)
    as (m & h' & E & Hpre & Hat).
  exists m, h'. split; [exact E|]. split; [exact Hpre|].
  split; [exact (member_at_view _ _ _ _ Hat)|].
  destruct Hat as (M & [_ HM] & Hid & Ho & Hty & Hdv & Hps & Hreq).
  simpl in *.
  unfold member_identifier, member_owner, member_is_required,
    member_idl_type, member_default_value, get_Member.
  rewrite HM. cbn [res_bind].
  pose proof (proj1 Hty) as Hlo.
  apply cell_zero, get_IdlType_cell in Hty. rewrite Hty. cbn [res_bind].
  rewrite Hid, Ho. conjs; try reflexivity.
  - exists (m_idl_type M). auto.
  - exists (m_default_value M). split; [reflexivity|].
    exact (option_at_get_literal _ _ _ _ Hdv).
Qed.

(** X12: The freeze only reads the builder: every object that existed is as it
    was, the builder holds what it held, and the dictionary is a new
    object. *)
Theorem freeze_preserves_heap (h : heap) ir c d h' :
  builder_contents h ir = Ret c ->
  Dictionary_init ir h = Ret (d, h') ->
  (forall l o, h !! l = Some o -> h' !! l = Some o)
  /\ h !! d = None
  /\ builder_contents h' ir = Ret c
  /\ builder_cells h' ir = builder_cells h ir.
Proof.
  intros Hc Hinit.
  destruct (Dictionary_init_frozen _ _ _ _ _ Hc Hinit)
    as (_ & -> & Hpre & _).
  pose proof (agree_prefix 0 _ _ Hpre) as Hag.
  apply builder_contents_at in Hc.
  assert (Hc' : builder_at 0 h' ir c)
    by (eapply builder_at_mono; [exact Hc|lia|exact Hag]).
  split; [intros l o; apply Hag; lia|].
  split; [apply lookup_ge_None; lia|].
  split; [exact (builder_at_contents _ _ _ _ Hc')|].
  destruct Hc as (b & elems & [_ Hb] & _ & _ & _ & [_ Hl] & Hms & _).
  assert (Hmap : map (member_ir_cells h') elems
                 = map (member_ir_cells h) elems).
  { clear -Hms Hag.
    induction Hms as [|x y xs ys Hxy _ IH]; cbn [map]; [reflexivity|].
    rewrite IH. f_equal. destruct Hxy as (mir & [_ Hx] & _).
    unfold member_ir_cells. now rewrite Hx, (Hag _ _ (Nat.le_0_l _) Hx). }
  unfold builder_cells.
  rewrite Hb, Hl, (Hag _ _ (Nat.le_0_l _) Hb), (Hag _ _ (Nat.le_0_l _) Hl).
  now rewrite Hmap.
Qed.

Lemma freeze_preserves_heap_witness :
  (builder_contents (snd builder_example) (fst builder_example)
     = Ret Derived_contents
   /\ Dictionary_init (fst builder_example) (snd builder_example)
      = Ret (fst frozen_example, snd frozen_example))
  /\ builder_contents (snd frozen_example) (fst builder_example)
     = Ret Derived_contents.
Proof.
  split; [split; [exact builder_example_contents|exact frozen_example_eq]|].
  exact (proj1 (proj2 (proj2 (freeze_preserves_heap _ _ _ _ _
                  builder_example_contents frozen_example_eq)))).
Defined.

Lemma members_at_range lo (h : heap) ls vs :
  Forall2 (member_at lo h) ls vs ->
  Forall (fun m => lo <= m < length h) ls.
Proof.
  induction 1 as [|l v ls vs Hl _ IH]; constructor; [|exact IH].
  destruct Hl as (m & [Hlo Hm] & _). apply lookup_lt_Some in Hm. lia.
Qed.

(** X13: A builder can be frozen again: the two dictionaries are different
    objects with no member in common, and both show the builder's
    fields. *)
Theorem freeze_twice (h : heap) ir c :
  builder_contents h ir = Ret c ->
  c_is_partial c = false ->
  exists d1 h1 d2 h2 own1 own2,
    Dictionary_init ir h = Ret (d1, h1)
    /\ Dictionary_init ir h1 = Ret (d2, h2)
    /\ d1 <> d2
    /\ Dictionary_view h2 d1 = Ret (frozen_dictionary d1 c)
    /\ Dictionary_view h2 d2 = Ret (frozen_dictionary d2 c)
    /\ Dictionary_own_members h2 d1 = Ret own1
    /\ Dictionary_own_members h2 d2 = Ret own2
    /\ Forall (fun m => ~ In m own2) own1.
Proof.
  intros Hc Hp. apply builder_contents_at in Hc.
  destruct (Dictionary_init_spec h ir c Hc Hp) as (h1 & E1 & Hpre1 & Hat1).
  assert (Hc1 : builder_at 0 h1 ir c)
    by (eapply builder_at_mono; [exact Hc|lia|now apply agree_prefix]).
  destruct (Dictionary_init_spec h1 ir c Hc1 Hp) as (h2 & E2 & Hpre2 & Hat2).
  assert (Hat1' : dictionary_at (length h) h2 (length h)
                    (frozen_dictionary (length h) c))
    by (eapply dictionary_at_mono; [exact Hat1|lia|now apply agree_prefix]).
  destruct Hat1 as (D1 & [_ HD1] & _ & _ & Hms1 & _).
  assert (Hlt : length h < length h1) by now apply lookup_lt_Some in HD1.
  pose proof (dictionary_at_view _ _ _ _ Hat1') as V1.
  pose proof (dictionary_at_view _ _ _ _ Hat2) as V2.
  destruct Hat1' as (D1' & [_ HD1'] & _ & _ & Hms1' & _).
  destruct Hat2 as (D2 & [_ HD2] & _ & _ & Hms2 & _).
  assert (D1' = D1).
  { destruct Hpre2 as [t ->].
    rewrite (lookup_app_l_Some _ t _ _ HD1) in HD1'. congruence. }
  subst D1'.
  exists (length h), h1, (length h1), h2, (d_own_members D1),
    (d_own_members D2).
  unfold Dictionary_own_members, get_Dictionary. rewrite HD1', HD2.
  conjs; try assumption; try reflexivity; [lia|].
  apply members_at_range in Hms1, Hms2.
  rewrite Forall_forall in *. intros m Hm Hin.
  apply list_elem_of_In in Hin.
  specialize (Hms1 m Hm). specialize (Hms2 m Hin). lia.
Qed.

Lemma freeze_twice_witness :
  (builder_contents (snd builder_example) (fst builder_example)
     = Ret Derived_contents
   /\ c_is_partial Derived_contents = false)
  /\ exists d1 h1 d2 h2 own1 own2,
       Dictionary_init (fst builder_example) (snd builder_example)
         = Ret (d1, h1)
       /\ Dictionary_init (fst builder_example) h1 = Ret (d2, h2)
       /\ d1 <> d2
       /\ Dictionary_view h2 d1 = Ret (frozen_dictionary d1 Derived_contents)
       /\ Dictionary_view h2 d2 = Ret (frozen_dictionary d2 Derived_contents)
       /\ Dictionary_own_members h2 d1 = Ret own1
       /\ Dictionary_own_members h2 d2 = Ret own2
       /\ Forall (fun m => ~ In m own2) own1.
Proof.
  split; [split; [exact builder_example_contents|reflexivity]|].
  exact (freeze_twice _ _ _ builder_example_contents eq_refl).
Defined.

(** ** The members query: what it keeps, what it passes on *)

Lemma get_Dictionary_agree (h h' : heap) l d :
  agree 0 h h' -> get_Dictionary h l = Ret d -> get_Dictionary h' l = Ret d.
Proof.
  unfold get_Dictionary. intros Hag.
  destruct (h !! l) as [[]|] eqn:E; try discriminate.
  now rewrite (Hag _ _ (Nat.le_0_l _) E).
Qed.

Lemma get_Member_agree (h h' : heap) l m :
  agree 0 h h' -> get_Member h l = Ret m -> get_Member h' l = Ret m.
Proof.
  unfold get_Member. intros Hag.
  destruct (h !! l) as [[]|] eqn:E; try discriminate.
  now rewrite (Hag _ _ (Nat.le_0_l _) E).
Qed.

Lemma get_RefById_agree (h h' : heap) l r :
  agree 0 h h' -> get_RefById h l = Ret r -> get_RefById h' l = Ret r.
Proof.
  unfold get_RefById. intros Hag.
  destruct (h !! l) as [[]|] eqn:E; try discriminate.
  now rewrite (Hag _ _ (Nat.le_0_l _) E).
Qed.

Lemma Dictionary_inherited_agree resolver (h h' : heap) d r :
  agree 0 h h' ->
  Dictionary_inherited resolver h d = Ret r ->
  Dictionary_inherited resolver h' d = Ret r.
Proof.
  unfold Dictionary_inherited. intros Hag H.
  apply res_bind_Ret in H. destruct H as (D & HD & H).
  rewrite (get_Dictionary_agree _ _ _ _ Hag HD). cbn [res_bind].
  destruct (d_inherited D) as [l|]; [|exact H].
  apply res_bind_Ret in H. destruct H as (ref & Href & H).
  now rewrite (get_RefById_agree _ _ _ _ Hag Href).
Qed.

Lemma Dictionary_own_members_agree (h h' : heap) d own :
  agree 0 h h' ->
  Dictionary_own_members h d = Ret own ->
  Dictionary_own_members h' d = Ret own.
Proof.
  unfold Dictionary_own_members. intros Hag H.
  apply res_bind_Ret in H. destruct H as (D & HD & H).
  now rewrite (get_Dictionary_agree _ _ _ _ Hag HD).
Qed.

Lemma member_identifier_agree (h h' : heap) m k :
  agree 0 h h' ->
  member_identifier h m = Ret k -> member_identifier h' m = Ret k.
Proof.
  unfold member_identifier. intros Hag H.
  apply res_bind_Ret in H. destruct H as (M & HM & H).
  now rewrite (get_Member_agree _ _ _ _ Hag HM).
Qed.

Lemma sorted_by_identifier_agree (h h' : heap) own s :
  agree 0 h h' ->
  sorted_by_identifier h own = Ret s -> sorted_by_identifier h' own = Ret s.
Proof.
  unfold sorted_by_identifier. intros Hag H.
  apply res_bind_Ret in H. destruct H as (keyed & Hk & H).
  enough (res_mapM (fun m => let? k := member_identifier h' m in Ret (k, m))
            own = Ret keyed) as -> by exact H.
  clear H. revert keyed Hk. induction own as [|m own IH]; simpl;
    intros keyed Hk; [exact Hk|].
  apply res_bind_Ret in Hk. destruct Hk as (km & Hkm & Hk).
  apply res_bind_Ret in Hkm. destruct Hkm as (k & Hid & Hkm).
  apply res_bind_Ret in Hk. destruct Hk as (rest & Hrest & Hk).
  rewrite (member_identifier_agree _ _ _ _ Hag Hid). cbn [res_bind].
  rewrite (IH _ Hrest). cbn [res_bind]. inversion Hkm; subst. exact Hk.
Qed.

Lemma collect_agree resolver (h h' : heap) :
  agree 0 h h' ->
  forall fuel p ms,
    collect_inherited_members resolver fuel h p = Some (Ret ms) ->
    collect_inherited_members resolver fuel h' p = Some (Ret ms).
Proof.
  intros Hag. induction fuel as [|fuel IH]; intros p ms H; [discriminate|].
  simpl in *. destruct p as [d|]; [|exact H].
  destruct (Dictionary_inherited resolver h d) as [parent|e] eqn:Hinh;
    [|discriminate].
  rewrite (Dictionary_inherited_agree _ _ _ _ _ Hag Hinh).
  destruct (collect_inherited_members resolver fuel h parent)
    as [[pm|e]|] eqn:Hp; try discriminate.
  rewrite (IH _ _ Hp). injection H as H'. f_equal.
  apply res_bind_Ret in H'. destruct H' as (own & Hown & H').
  apply res_bind_Ret in H'. destruct H' as (s & Hs & H').
  rewrite (Dictionary_own_members_agree _ _ _ _ Hag Hown). cbn [res_bind].
  rewrite (sorted_by_identifier_agree _ _ _ _ Hag Hs). cbn [res_bind].
  exact H'.
Qed.

(** X14: Freezing one more builder does not change what the members query of
    a dictionary that was already there returns. *)
Theorem members_survive_later_freeze resolver (h : heap) ir c d' h' dict
    fuel ms :
  builder_contents h ir = Ret c ->
  Dictionary_init ir h = Ret (d', h') ->
  Dictionary_members resolver fuel h dict = Some (Ret ms) ->
  Dictionary_members resolver fuel h' dict = Some (Ret ms)
  /\ Dictionary_own_members h' dict = Dictionary_own_members h dict.
Proof.
  intros Hc Hinit Hms.
  destruct (Dictionary_init_frozen _ _ _ _ _ Hc Hinit) as (_ & _ & Hpre & _).
  pose proof (agree_prefix 0 _ _ Hpre) as Hag.
  split; [now apply (collect_agree resolver h h' Hag)|].
  unfold Dictionary_members in Hms. destruct fuel as [|fuel]; [discriminate|].
  simpl in Hms.
  destruct (Dictionary_inherited resolver h dict) as [p|e]; [|discriminate].
  destruct (collect_inherited_members resolver fuel h p) as [[pm|e]|];
    try discriminate.
  injection Hms as H. apply res_bind_Ret in H.
  destruct H as (own & Hown & _).
  now rewrite Hown, (Dictionary_own_members_agree _ _ _ _ Hag Hown).
Qed.

(** X15: The members of a dictionary begin with the members of its parent, as
    the parent reports them; its own members follow, all of them, each
    once. *)
Theorem members_extend_parent resolver (h : heap) d p fuel pm ms :
  Dictionary_inherited resolver h d = Ret (Some p) ->
  Dictionary_members resolver fuel h p = Some (Ret pm) ->
  Dictionary_members resolver (S fuel) h d = Some (Ret ms) ->
  exists own own_sorted,
    Dictionary_own_members h d = Ret own
    /\ ms = pm ++ own_sorted
    /\ Permutation own own_sorted
    /\ length ms = length pm + length own.
Proof.
  unfold Dictionary_members. intros Hinh Hp Hd. simpl in Hd.
  rewrite Hinh, Hp in Hd. injection Hd as H.
  apply res_bind_Ret in H. destruct H as (own & Hown & H).
  apply res_bind_Ret in H. destruct H as (s & Hs & H).
  inversion H; subst. exists own, s.
  destruct (sorted_by_identifier_spec _ _ _ Hs) as [Hperm _].
  split; [exact Hown|]. split; [reflexivity|]. split; [exact Hperm|].
  rewrite length_app. now rewrite (Permutation_length Hperm).
Qed.

Lemma members_spec_perm (h : heap) ds ms :
  members_spec h ds = Ret ms ->
  exists owns,
    res_mapM (Dictionary_own_members h) ds = Ret owns
    /\ Permutation ms (concat owns).
Proof.
  revert ms. induction ds as [|d ds IH]; simpl; intros ms H.
  - inversion H. exists []. split; [reflexivity|constructor].
  - apply res_bind_Ret in H. destruct H as (inh & Hinh & H).
    apply res_bind_Ret in H. destruct H as (own & Hown & H).
    apply res_bind_Ret in H. destruct H as (s & Hs & H).
    inversion H; subst. destruct (IH _ Hinh) as (owns & Howns & Hperm).
    rewrite Hown, Howns. exists (own :: owns). split; [reflexivity|].
    destruct (sorted_by_identifier_spec _ _ _ Hs) as [Hp _]. simpl.
    rewrite Permutation_app_comm. now apply Permutation_app.
Qed.

(** X16: The members of a dictionary are the own members of the dictionary
    and of all its ancestors, rearranged: none is dropped, none appears
    more often than it is declared. *)
Theorem members_are_all_own_members resolver (h : heap) d ds fuel ms :
  lineage resolver h (Some d) ds ->
  Dictionary_members resolver fuel h d = Some (Ret ms) ->
  exists owns,
    res_mapM (Dictionary_own_members h) ds = Ret owns
    /\ Permutation ms (concat owns)
    /\ length ms = length (concat owns).
Proof.
  intros Hlin Hms. unfold Dictionary_members in Hms.
  pose proof (collect_fuel_mono resolver h _ _ _ Hms
                (fuel + S (length ds)) ltac:(lia)) as Hbig.
  rewrite (collect_lineage resolver h _ _ Hlin) in Hbig by lia.
  injection Hbig as Hspec.
  destruct (members_spec_perm _ _ _ Hspec) as (owns & Howns & Hperm).
  exists owns. split; [exact Howns|]. split; [exact Hperm|].
  now apply Permutation_length.
Qed.

(** X17: A failure while looking up a parent, at any height of the chain, is
    the failure of the members query of every dictionary below: it is not
    caught, and no own members are consulted on the way. *)
Theorem members_pass_on_failure resolver (h : heap) d e n fuel :
  fails_above resolver h d e n ->
  n < fuel ->
  Dictionary_members resolver fuel h d = Some (Raise e).
Proof.
  unfold Dictionary_members. intros Hf. revert fuel.
  induction Hf as [d e H|d parent e n H _ IH]; intros fuel Hfuel;
    (destruct fuel as [|fuel]; [lia|]); simpl; rewrite H;
    [reflexivity|].
  now rewrite IH by lia.
Qed.

(** ** From the builder to the flattened view *)

Lemma insert_by_map {A} (key : A -> string) x xs :
  map key (insert_by key x xs) = insert_by (fun k => k) (key x) (map key xs).
Proof.
  induction xs as [|y ys IH]; simpl; [reflexivity|].
  destruct (String.leb (key x) (key y)); simpl; [reflexivity|].
  now rewrite IH.
Qed.

Lemma sorted_map {A} (key : A -> string) xs :
  map key (sorted key xs) = sorted (fun k => k) (map key xs).
Proof.
  induction xs as [|x xs IH]; simpl; [reflexivity|].
  now rewrite insert_by_map, IH.
Qed.

Lemma keyed_of_identifiers (h : heap) own ids :
  res_mapM (member_identifier h) own = Ret ids ->
  exists keyed,
    res_mapM (fun m => let? k := member_identifier h m in Ret (k, m)) own
      = Ret keyed
    /\ map fst keyed = ids.
Proof.
  revert ids. induction own as [|m own IH]; simpl; intros ids H.
  - inversion H. now exists [].
  - apply res_bind_Ret in H. destruct H as (k & Hk & H).
    apply res_bind_Ret in H. destruct H as (rest & Hrest & H).
    inversion H; subst. destruct (IH _ Hrest) as (keyed & Hkeyed & Hfst).
    exists ((k, m) :: keyed). rewrite Hk. cbn [res_bind]. rewrite Hkeyed.
    split; [reflexivity|]. simpl. now rewrite Hfst.
Qed.

Lemma sorted_by_identifier_ids (h : heap) own ids :
  res_mapM (member_identifier h) own = Ret ids ->
  exists s,
    sorted_by_identifier h own = Ret s
    /\ res_mapM (member_identifier h) s = Ret (sorted (fun k => k) ids).
Proof.
  intros Hids. destruct (keyed_of_identifiers _ _ _ Hids)
    as (keyed & Hkeyed & Hfst).
  exists (map snd (sorted fst keyed)). unfold sorted_by_identifier.
  rewrite Hkeyed. split; [reflexivity|].
  destruct (res_mapM_keyed _ _ _ Hkeyed) as [_ Hall].
  rewrite res_mapM_map_snd
    by (eapply Permutation_Forall; [apply sorted_perm|exact Hall]).
  rewrite sorted_map. do 2 f_equal. exact Hfst.
Qed.

Lemma dictionary_at_inherited resolver lo (h : heap) d v :
  dictionary_at lo h d v ->
  Dictionary_inherited resolver h d
  = match v_inherited v with
    | Some r => let? parent := target_object resolver r in Ret (Some parent)
    | None => Ret None
    end.
Proof.
  intros (D & [_ HD] & _ & Hinh & _).
  unfold Dictionary_inherited, get_Dictionary. rewrite HD. cbn [res_bind].
  destruct (d_inherited D) as [l|], (v_inherited v) as [r|];
    simpl in Hinh; try contradiction; [|reflexivity].
  unfold get_RefById. now rewrite (proj2 Hinh).
Qed.

(** X18: From builder to flattened view: once a builder is frozen, the
    members query gives the members of the parent the builder names (none
    when it names none), then the new dictionary's own members, whose
    identifiers are the builder's member identifiers in sorted order. *)
Theorem freeze_then_members resolver (h : heap) ir c po fuel pm :
  builder_contents h ir = Ret c ->
  c_is_partial c = false ->
  match c_inherited c with
  | Some r => let? parent := target_object resolver r in Ret (Some parent)
  | None => Ret None
  end = Ret po ->
  collect_inherited_members resolver fuel h po = Some (Ret pm) ->
  exists d h' own_sorted,
    Dictionary_init ir h = Ret (d, h')
    /\ Dictionary_members resolver (S fuel) h' d
       = Some (Ret (pm ++ own_sorted))
    /\ res_mapM (member_identifier h') own_sorted
       = Ret (sorted (fun k => k)
                (map c_member_identifier (c_own_members c))).
Proof.
  intros Hc Hp Hpo Hpm.
  destruct (Dictionary_init_spec h ir c (builder_contents_at _ _ _ Hc) Hp)
    as (h' & E & Hpre & Hat).
  pose proof (dictionary_at_inherited resolver _ _ _ _ Hat) as Hinh.
  simpl in Hinh. rewrite Hpo in Hinh.
  pose proof (collect_agree resolver h h' (agree_prefix 0 _ _ Hpre)
                _ _ _ Hpm) as Hpm'.
  destruct Hat as (D & [_ HD] & _ & _ & Hms & _). simpl in Hms.
  pose proof (members_at_identifier _ _ _ _ Hms) as Hids.
  rewrite map_map in Hids. simpl in Hids.
  destruct (sorted_by_identifier_ids _ _ _ Hids) as (s & Hs & Hsid).
  exists (length h), h', s. split; [exact E|]. split; [|exact Hsid].
  unfold Dictionary_members. simpl. rewrite Hinh, Hpm'.
  unfold Dictionary_own_members, get_Dictionary. rewrite HD.
  cbn [res_bind]. now rewrite Hs.
Qed.



(** X20: A member made by [DictionaryMember.IR.__init__] and then frozen either
    reports no default value or is not required; it reports no default
    exactly when none was given. *)
Theorem frozen_default_implies_optional (h : heap) identifier idl_type dv
    ea co di mir h1 owner :
  DictionaryMember_IR_init identifier idl_type dv ea co di h
    = Ret (mir, h1) ->
  is_Dictionary (h1 !! owner) = true ->
  exists m h2,
    DictionaryMember_init mir owner h1 = Ret (m, h2)
    /\ (member_default_value h2 m = Ret None
        \/ member_is_required h2 m = Ret false)
    /\ (member_default_value h2 m = Ret None <-> dv = VNone).
Proof.
  intros Hmade Hown.
  destruct (DictionaryMember_IR_init_inv _ _ _ _ _ _ _ _ _ Hmade)
    as (c & _ & Hc & _ & Hopt & Hnone).
  apply member_ir_contents_at in Hc.
  destruct (h1 !! owner) as [[| | | | | | | |D]|] eqn:HD; try discriminate.
  destruct (DictionaryMember_init_spec 0 h1 h1 mir owner D c Hc
              (agree_refl _ _) HD)
    as (m & h2 & E & _ & M & [_ HM] & _ & _ & Hty & Hdv & _).
  exists m, h2. split; [exact E|]. simpl in Hty, Hdv.
  unfold member_default_value, member_is_required, get_Member.
  rewrite HM. cbn [res_bind].
  apply cell_zero, get_IdlType_cell in Hty. rewrite Hty. cbn [res_bind].
  assert (Heq : m_default_value M = None <-> c_default_value c = None).
  { destruct (m_default_value M), (c_default_value c); simpl in Hdv;
      try contradiction; split; congruence. }
  split.
  - destruct Hopt as [Hn|Ho]; [left|right].
    + f_equal. now apply Heq.
    + now rewrite Ho.
  - rewrite <- Hnone, <- Heq. split; intros H; congruence.
Qed.

(** X21: A builder whose parent cannot be resolved is frozen all the same, and
    the dictionary answers for its own members; asking for the parent or
    for the flattened members fails with the resolver's failure. *)
Theorem freeze_with_unresolved_parent resolver (h : heap) ir c r fuel :
  builder_contents h ir = Ret c ->
  c_is_partial c = false ->
  c_inherited c = Some r ->
  resolver (ref_identifier r) = None ->
  exists d h' own,
    Dictionary_init ir h = Ret (d, h')
    /\ Dictionary_own_members h' d = Ret own
    /\ length own = length (c_own_members c)
    /\ Dictionary_inherited resolver h' d = Raise ResolutionFailure
    /\ Dictionary_members resolver (S fuel) h' d
       = Some (Raise ResolutionFailure).
Proof.
  intros Hc Hp Hr Hnone.
  destruct (Dictionary_init_spec h ir c (builder_contents_at _ _ _ Hc) Hp)
    as (h' & E & Hpre & Hat).
  pose proof (dictionary_at_inherited resolver _ _ _ _ Hat) as Hinh.
  simpl in Hinh. rewrite Hr in Hinh. unfold target_object in Hinh.
  rewrite Hnone in Hinh. simpl in Hinh.
  destruct Hat as (D & [_ HD] & _ & _ & Hms & _). simpl in Hms.
  exists (length h), h', (d_own_members D). split; [exact E|].
  split; [unfold Dictionary_own_members, get_Dictionary; now rewrite HD|].
  split; [apply Forall2_length in Hms; now rewrite length_map in Hms|].
  split; [exact Hinh|].
  unfold Dictionary_members. simpl. now rewrite Hinh.
Qed.

(** ** The further properties at work *)

Ltac hyps tac :=
  repeat split;
  first [exact I | reflexivity | assumption | tac
        | left; reflexivity | vm_compute; reflexivity].

Lemma member_builder_contents_witness :
  (member_args_heap !! 2
     = Some (OIdlType {| type_name := "long"; is_optional := false |})
   /\ option_at OLiteralConstant 0 member_args_heap None None
   /\ (@None loc = None
       \/ is_optional {| type_name := "long"; is_optional := false |} = true)
   /\ part_arg_ok member_args_heap VNone = true
   /\ component_arg_ok (VStr "core") = true
   /\ part_arg_ok member_args_heap VNone = true)
  /\ exists l h',
       DictionaryMember_IR_init "r" (VRef 2) VNone VNone (VStr "core") VNone
         member_args_heap = Ret (l, h')
       /\ member_ir_contents h' l
          = Ret {| c_member_identifier := "r";
                   c_idl_type := {| type_name := "long";
                                    is_optional := false |};
                   c_default_value := None;
                   c_member_parts :=
                     arg_parts member_args_heap VNone (VStr "core") VNone |}.
Proof.
  split; [hyps fail|].
  destruct (member_builder_contents member_args_heap "r" 2 _ None None
              VNone (VStr "core") VNone eq_refl I (or_introl eq_refl)
              eq_refl eq_refl eq_refl)
    as (l & h' & ir & E & _ & _ & _ & _ & Hc).
  exists l, h'. split; [exact E|exact Hc].
Defined.

Lemma member_example_eq :
  DictionaryMember_IR_init "x" (VRef 0) (VRef 1) VNone VNone VNone
    member_args_heap = Ret (fst member_example, snd member_example).
Proof. vm_compute. reflexivity. Qed.

Lemma member_builder_invariant_witness :
  DictionaryMember_IR_init "x" (VRef 0) (VRef 1) VNone VNone VNone
    member_args_heap = Ret (fst member_example, snd member_example)
  /\ exists c,
       member_ir_contents (snd member_example) (fst member_example) = Ret c
       /\ (c_default_value c = None \/ is_optional (c_idl_type c) = true).
Proof.
  split; [exact member_example_eq|].
  destruct (member_builder_invariant _ _ _ _ _ _ _ _ _ member_example_eq)
    as (c & _ & Hc & _ & Hopt & _).
  exists c. split; [exact Hc|exact Hopt].
Defined.

Lemma members_list_example_eq :
  snd members_list_example !! fst members_list_example
  = Some (OList example_elems).
Proof. vm_compute. reflexivity. Qed.

Lemma example_elems_contents :
  res_mapM (member_ir_contents (snd members_list_example)) example_elems
  = Ret [required_member "m"; required_member "b"].
Proof. vm_compute. reflexivity. Qed.

Lemma dictionary_builder_iter_all_members_witness :
  (option_at ORefById 0 (snd members_list_example) None None
   /\ snd members_list_example !! fst members_list_example
      = Some (OList example_elems)
   /\ forallb (fun m => is_MemberIR (snd members_list_example !! m))
        example_elems = true
   /\ part_arg_ok (snd members_list_example) VNone = true
   /\ component_arg_ok VNone = true
   /\ part_arg_ok (snd members_list_example) VNone = true)
  /\ exists ir h',
       Dictionary_IR_init "Derived" (VBool false) VNone
         (VRef (fst members_list_example)) VNone VNone VNone
         (snd members_list_example) = Ret (ir, h')
       /\ iter_all_members ir h' = Ret (example_elems, h').
Proof.
  assert (Hms : forallb (fun m => is_MemberIR (snd members_list_example !! m))
                  example_elems = true) by (vm_compute; reflexivity).
  split; [hyps ltac:(exact members_list_example_eq)|].
  destruct (dictionary_builder_iter_all_members (snd members_list_example)
              "Derived" false None None (fst members_list_example)
              example_elems VNone VNone VNone
              I members_list_example_eq Hms eq_refl eq_refl eq_refl)
    as (ir & h' & b & E & _ & _ & _ & _ & _ & _ & Hit).
  exists ir, h'. split; [exact E|exact Hit].
Defined.

Lemma dictionary_builder_owns_its_list_witness :
  (option_at ORefById 0 (snd members_list_example) None None
   /\ snd members_list_example !! fst members_list_example
      = Some (OList example_elems)
   /\ forallb (fun m => is_MemberIR (snd members_list_example !! m))
        example_elems = true
   /\ part_arg_ok (snd members_list_example) VNone = true
   /\ component_arg_ok VNone = true
   /\ part_arg_ok (snd members_list_example) VNone = true)
  /\ exists ir h',
       Dictionary_IR_init "Derived" (VBool false) VNone
         (VRef (fst members_list_example)) VNone VNone VNone
         (snd members_list_example) = Ret (ir, h')
       /\ iter_all_members ir (<[fst members_list_example := OList []]> h')
          = Ret (example_elems,
                 <[fst members_list_example := OList []]> h').
Proof.
  assert (Hms : forallb (fun m => is_MemberIR (snd members_list_example !! m))
                  example_elems = true) by (vm_compute; reflexivity).
  split; [hyps ltac:(exact members_list_example_eq)|].
  exact (dictionary_builder_owns_its_list (snd members_list_example)
           "Derived" false None None (fst members_list_example)
           example_elems VNone VNone VNone (OList [])
           I members_list_example_eq Hms eq_refl eq_refl eq_refl).
Defined.

Lemma dictionary_builder_contents_witness :
  (option_at ORefById 0 (snd members_list_example) None None
   /\ snd members_list_example !! fst members_list_example
      = Some (OList example_elems)
   /\ res_mapM (member_ir_contents (snd members_list_example)) example_elems
      = Ret [required_member "m"; required_member "b"]
   /\ part_arg_ok (snd members_list_example) VNone = true
   /\ component_arg_ok VNone = true
   /\ part_arg_ok (snd members_list_example) VNone = true)
  /\ exists ir h',
       Dictionary_IR_init "Derived" (VBool false) VNone
         (VRef (fst members_list_example)) VNone VNone VNone
         (snd members_list_example) = Ret (ir, h')
       /\ builder_contents h' ir
          = Ret {| c_identifier := "Derived";
                   c_is_partial := false;
                   c_inherited := None;
                   c_own_members := [required_member "m";
                                     required_member "b"];
                   c_parts := arg_parts (snd members_list_example)
                                VNone VNone VNone |}.
Proof.
  split; [hyps ltac:(first [exact members_list_example_eq
                           |exact example_elems_contents])|].
  exact (dictionary_builder_contents (snd members_list_example)
           "Derived" false None None (fst members_list_example)
           example_elems _ VNone VNone VNone
           I members_list_example_eq example_elems_contents
           eq_refl eq_refl eq_refl).
Defined.

Lemma construct_then_freeze_witness :
  (option_at ORefById 0 (snd members_list_example) None None
   /\ snd members_list_example !! fst members_list_example
      = Some (OList example_elems)
   /\ res_mapM (member_ir_contents (snd members_list_example)) example_elems
      = Ret [required_member "m"; required_member "b"]
   /\ part_arg_ok (snd members_list_example) VNone = true
   /\ component_arg_ok VNone = true
   /\ part_arg_ok (snd members_list_example) VNone = true)
  /\ (exists ir h',
        Dictionary_IR_init "Derived" (VBool true) VNone
          (VRef (fst members_list_example)) VNone VNone VNone
          (snd members_list_example) = Ret (ir, h')
        /\ Dictionary_init ir h' = Raise AssertionError)
  /\ (exists ir h' d h'',
        Dictionary_IR_init "Derived" (VBool false) VNone
          (VRef (fst members_list_example)) VNone VNone VNone
          (snd members_list_example) = Ret (ir, h')
        /\ Dictionary_init ir h' = Ret (d, h'')).
Proof.
  split; [hyps ltac:(first [exact members_list_example_eq
                           |exact example_elems_contents])|].
  split.
  - exact (construct_then_freeze (snd members_list_example)
             "Derived" true None None (fst members_list_example)
             example_elems _ VNone VNone VNone
             I members_list_example_eq example_elems_contents
             eq_refl eq_refl eq_refl).
  - destruct (construct_then_freeze (snd members_list_example)
                "Derived" false None None (fst members_list_example)
                example_elems _ VNone VNone VNone
                I members_list_example_eq example_elems_contents
                eq_refl eq_refl eq_refl)
      as (ir & h' & E & d & h'' & E' & _).
    exists ir, h', d, h''. split; [exact E|exact E'].
Defined.

Lemma member_freeze_accessors_witness :
  (member_ir_contents (snd base_and_builder)
     (first_member_ir (snd base_and_builder) (snd (fst base_and_builder)))
     = Ret (required_member "m")
   /\ is_Dictionary (snd base_and_builder !! Base) = true)
  /\ exists m h',
       DictionaryMember_init
         (first_member_ir (snd base_and_builder) (snd (fst base_and_builder)))
         Base (snd base_and_builder) = Ret (m, h')
       /\ member_view h' m = Ret (frozen_member Base (required_member "m")).
Proof.
  assert (Hc : member_ir_contents (snd base_and_builder)
                 (first_member_ir (snd base_and_builder)
                    (snd (fst base_and_builder)))
               = Ret (required_member "m")) by (vm_compute; reflexivity).
  assert (Ho : is_Dictionary (snd base_and_builder !! Base) = true)
    by (vm_compute; reflexivity).
  split; [split; assumption|].
  destruct (member_freeze_accessors _ _ _ _ Hc Ho)
    as (m & h' & E & _ & Hv & _).
  exists m, h'. split; [exact E|exact Hv].
Defined.

Lemma base_and_builder_contents :
  builder_contents (snd base_and_builder) (snd (fst base_and_builder))
  = Ret Derived_contents.
Proof. vm_compute. reflexivity. Qed.

Lemma base_and_builder_frozen :
  Dictionary_init (snd (fst base_and_builder)) (snd base_and_builder)
  = Ret (Derived, example_heap).
Proof. vm_compute. reflexivity. Qed.

Lemma base_members_before :
  Dictionary_members example_resolver 3 (snd base_and_builder) Base
  = Some (Ret (members_of (snd base_and_builder) Base)).
Proof. vm_compute. reflexivity. Qed.

Lemma members_survive_later_freeze_witness :
  (builder_contents (snd base_and_builder) (snd (fst base_and_builder))
     = Ret Derived_contents
   /\ Dictionary_init (snd (fst base_and_builder)) (snd base_and_builder)
      = Ret (Derived, example_heap)
   /\ Dictionary_members example_resolver 3 (snd base_and_builder) Base
      = Some (Ret (members_of (snd base_and_builder) Base)))
  /\ Dictionary_members example_resolver 3 example_heap Base
     = Some (Ret (members_of (snd base_and_builder) Base)).
Proof.
  split; [hyps ltac:(first [exact base_and_builder_contents
                           |exact base_and_builder_frozen
                           |exact base_members_before])|].
  exact (proj1 (members_survive_later_freeze example_resolver _ _ _ _ _ _ _ _
                  base_and_builder_contents base_and_builder_frozen
                  base_members_before)).
Defined.

Lemma members_extend_parent_witness :
  (Dictionary_inherited example_resolver example_heap Derived
     = Ret (Some Base)
   /\ Dictionary_members example_resolver 2 example_heap Base
      = Some (Ret (members_of example_heap Base))
   /\ Dictionary_members example_resolver 3 example_heap Derived
      = Some (Ret (members_of example_heap Derived)))
  /\ exists own own_sorted,
       Dictionary_own_members example_heap Derived = Ret own
       /\ members_of example_heap Derived
          = members_of example_heap Base ++ own_sorted
       /\ Permutation own own_sorted
       /\ length (members_of example_heap Derived)
          = length (members_of example_heap Base) + length own.
Proof.
  assert (H1 : Dictionary_inherited example_resolver example_heap Derived
               = Ret (Some Base)) by (vm_compute; reflexivity).
  assert (H2 : Dictionary_members example_resolver 2 example_heap Base
               = Some (Ret (members_of example_heap Base)))
    by (vm_compute; reflexivity).
  assert (H3 : Dictionary_members example_resolver 3 example_heap Derived
               = Some (Ret (members_of example_heap Derived)))
    by (vm_compute; reflexivity).
  split; [hyps fail|].
  exact (members_extend_parent example_resolver example_heap Derived Base 2
           _ _ H1 H2 H3).
Defined.

Lemma members_are_all_own_members_witness :
  (lineage example_resolver example_heap (Some Derived) [Derived; Base]
   /\ Dictionary_members example_resolver 3 example_heap Derived
      = Some (Ret (members_of example_heap Derived)))
  /\ exists owns,
       res_mapM (Dictionary_own_members example_heap) [Derived; Base]
         = Ret owns
       /\ Permutation (members_of example_heap Derived) (concat owns)
       /\ length (members_of example_heap Derived) = length (concat owns).
Proof.
  assert (H3 : Dictionary_members example_resolver 3 example_heap Derived
               = Some (Ret (members_of example_heap Derived)))
    by (vm_compute; reflexivity).
  split; [split; [exact example_lineage|exact H3]|].
  exact (members_are_all_own_members example_resolver example_heap Derived
           _ 3 _ example_lineage H3).
Defined.

Lemma members_pass_on_failure_witness :
  (fails_above unrooted_resolver (snd unrooted_example)
     (snd (fst unrooted_example)) ResolutionFailure 1
   /\ 1 < 2)
  /\ Dictionary_members unrooted_resolver 2 (snd unrooted_example)
       (snd (fst unrooted_example)) = Some (Raise ResolutionFailure).
Proof.
  assert (Hf : fails_above unrooted_resolver (snd unrooted_example)
                 (snd (fst unrooted_example)) ResolutionFailure 1).
  { apply fails_further with (parent := fst (fst unrooted_example));
      [vm_compute; reflexivity|].
    apply fails_here. vm_compute. reflexivity. }
  split; [split; [exact Hf|lia]|].
  exact (members_pass_on_failure _ _ _ _ _ 2 Hf ltac:(lia)).
Defined.

Lemma freeze_then_members_witness :
  (builder_contents (snd base_and_builder) (snd (fst base_and_builder))
     = Ret Derived_contents
   /\ c_is_partial Derived_contents = false
   /\ match c_inherited Derived_contents with
      | Some r => let? parent := target_object example_resolver r in
                  Ret (Some parent)
      | None => Ret None
      end = Ret (Some Base)
   /\ collect_inherited_members example_resolver 3 (snd base_and_builder)
        (Some Base)
      = Some (Ret (members_of (snd base_and_builder) Base)))
  /\ exists d h' own_sorted,
       Dictionary_init (snd (fst base_and_builder)) (snd base_and_builder)
         = Ret (d, h')
       /\ Dictionary_members example_resolver 4 h' d
          = Some (Ret (members_of (snd base_and_builder) Base ++ own_sorted))
       /\ res_mapM (member_identifier h') own_sorted
          = Ret (sorted (fun k => k)
                   (map c_member_identifier
                      (c_own_members Derived_contents))).
Proof.
  assert (Hpo : match c_inherited Derived_contents with
                | Some r => let? parent := target_object example_resolver r in
                            Ret (Some parent)
                | None => Ret None
                end = Ret (Some Base)) by (vm_compute; reflexivity).
  split; [hyps ltac:(first [exact base_and_builder_contents
                           |exact base_members_before])|].
  exact (freeze_then_members example_resolver _ _ _ _ 3 _
           base_and_builder_contents eq_refl Hpo base_members_before).
Defined.


Lemma owned_member_example_eq :
  DictionaryMember_IR_init "x" (VRef 0) (VRef 1) VNone VNone VNone
    owner_example_heap
  = Ret (fst owned_member_example, snd owned_member_example).
Proof. vm_compute. reflexivity. Qed.

Lemma frozen_default_implies_optional_witness :
  (DictionaryMember_IR_init "x" (VRef 0) (VRef 1) VNone VNone VNone
     owner_example_heap
   = Ret (fst owned_member_example, snd owned_member_example)
   /\ is_Dictionary (snd owned_member_example !! 3) = true)
  /\ exists m h2,
       DictionaryMember_init (fst owned_member_example) 3
         (snd owned_member_example) = Ret (m, h2)
       /\ (member_default_value h2 m = Ret None
           \/ member_is_required h2 m = Ret false).
Proof.
  assert (Ho : is_Dictionary (snd owned_member_example !! 3) = true)
    by (vm_compute; reflexivity).
  split; [split; [exact owned_member_example_eq|exact Ho]|].
  destruct (frozen_default_implies_optional _ _ _ _ _ _ _ _ _ 3
              owned_member_example_eq Ho)
    as (m & h2 & E & H & _).
  exists m, h2. split; [exact E|exact H].
Defined.

Lemma freeze_with_unresolved_parent_witness :
  (builder_contents (snd builder_example) (fst builder_example)
     = Ret Derived_contents
   /\ c_is_partial Derived_contents = false
   /\ c_inherited Derived_contents = Some {| ref_identifier := "Base" |}
   /\ (fun _ : Identifier => @None loc)
        (ref_identifier {| ref_identifier := "Base" |}) = None)
  /\ exists d h' own,
       Dictionary_init (fst builder_example) (snd builder_example)
         = Ret (d, h')
       /\ Dictionary_own_members h' d = Ret own
       /\ length own = length (c_own_members Derived_contents)
       /\ Dictionary_inherited (fun _ => None) h' d = Raise ResolutionFailure
       /\ Dictionary_members (fun _ => None) 1 h' d
          = Some (Raise ResolutionFailure).
Proof.
  split; [hyps ltac:(exact builder_example_contents)|].
  exact (freeze_with_unresolved_parent (fun _ => None) _ _ _
           {| ref_identifier := "Base" |} 0
           builder_example_contents eq_refl eq_refl eq_refl).
Defined.
